(** * Mindor Cloud integration: device-state synchronisation core

    A shallow embedding of the Home Assistant custom component
    [custom_components/mindor_cloud]: the WebSocket client's reconnect
    logic, the coordinator's push-frame reducer, the command debouncer,
    the energy sensors, the socket switch and the REST request signing.

    Conventions.  Mutable Python objects are modelled by explicit state
    passing; where two references may denote the same object (the device
    dicts of the coordinator and of the entities) the objects live in a
    store indexed by addresses.  Python [float]s are modelled by exact
    rationals ([Qc]); the builtin [float()] parser and [round()] are
    section variables. *)

From Stdlib Require Import ZArith QArith Qcanon String Ascii List Lia.
From Stdlib Require Import DecimalString.
From stdpp Require Import base option list gmap strings.

Local Open Scope Z_scope.

(* ===================================================================== *)
(** * websocket_client.py: [MindorWebSocketClient] *)
(* ===================================================================== *)

Module WebSocketClient.

(** An [asyncio.Task] held in a timer attribute.  [Running] is the task
    whose body is currently executing (a task may cancel itself). *)
Inductive task := Pending | Running | Done | Cancelled.

(** [task.cancel()]: a pending task will never run; a running task ends
    as cancelled once its body returns; a finished task is unaffected. *)
Definition cancel (t : task) : task :=
  match t with
  | Pending | Running => Cancelled
  | Done => Done
  | Cancelled => Cancelled
  end.

(** The attributes set by [__init__] that the connection logic uses,
    and a ghost counter of the calls to [session.ws_connect]. *)
Record client := Client {
  is_connected : bool;
  is_close : bool;
  is_connected_websocket : bool;
  is_reconnect : bool;
  connect_count : Z;
  max_connect_attempts : Z;
  reconnect_timer : option task;
  connect_timer : option task;
  listening : bool;
  subscribed : nat;
  ws_connect_calls : nat
}.

Definition init : client :=
  {| is_connected := false; is_close := false;
     is_connected_websocket := false; is_reconnect := false;
     connect_count := 0; max_connect_attempts := 30;
     reconnect_timer := None; connect_timer := None;
     listening := false; subscribed := 0%nat; ws_connect_calls := 0%nat |}.

Definition set_connect_count (n : Z) (c : client) : client :=
  {| is_connected := is_connected c; is_close := is_close c;
     is_connected_websocket := is_connected_websocket c;
     is_reconnect := is_reconnect c;
     connect_count := n; max_connect_attempts := max_connect_attempts c;
     reconnect_timer := reconnect_timer c; connect_timer := connect_timer c;
     listening := listening c; subscribed := subscribed c;
     ws_connect_calls := ws_connect_calls c |}.

Definition set_connect_timer (t : option task) (c : client) : client :=
  {| is_connected := is_connected c; is_close := is_close c;
     is_connected_websocket := is_connected_websocket c;
     is_reconnect := is_reconnect c;
     connect_count := connect_count c;
     max_connect_attempts := max_connect_attempts c;
     reconnect_timer := reconnect_timer c; connect_timer := t;
     listening := listening c; subscribed := subscribed c;
     ws_connect_calls := ws_connect_calls c |}.

Definition set_reconnect_timer (t : option task) (c : client) : client :=
  {| is_connected := is_connected c; is_close := is_close c;
     is_connected_websocket := is_connected_websocket c;
     is_reconnect := is_reconnect c;
     connect_count := connect_count c;
     max_connect_attempts := max_connect_attempts c;
     reconnect_timer := t; connect_timer := connect_timer c;
     listening := listening c; subscribed := subscribed c;
     ws_connect_calls := ws_connect_calls c |}.

Definition set_is_connected (b : bool) (c : client) : client :=
  {| is_connected := b; is_close := is_close c;
     is_connected_websocket := is_connected_websocket c;
     is_reconnect := is_reconnect c;
     connect_count := connect_count c;
     max_connect_attempts := max_connect_attempts c;
     reconnect_timer := reconnect_timer c; connect_timer := connect_timer c;
     listening := listening c; subscribed := subscribed c;
     ws_connect_calls := ws_connect_calls c |}.

Definition set_is_reconnect (b : bool) (c : client) : client :=
  {| is_connected := is_connected c; is_close := is_close c;
     is_connected_websocket := is_connected_websocket c;
     is_reconnect := b;
     connect_count := connect_count c;
     max_connect_attempts := max_connect_attempts c;
     reconnect_timer := reconnect_timer c; connect_timer := connect_timer c;
     listening := listening c; subscribed := subscribed c;
     ws_connect_calls := ws_connect_calls c |}.

Definition set_listening (b : bool) (c : client) : client :=
  {| is_connected := is_connected c; is_close := is_close c;
     is_connected_websocket := is_connected_websocket c;
     is_reconnect := is_reconnect c;
     connect_count := connect_count c;
     max_connect_attempts := max_connect_attempts c;
     reconnect_timer := reconnect_timer c; connect_timer := connect_timer c;
     listening := b; subscribed := subscribed c;
     ws_connect_calls := ws_connect_calls c |}.

(** [_on_websocket_open]: flags set, counter reset, the one-second
    flag-clearing task (re)started, the subscribe frame sent. *)
Definition on_websocket_open (c : client) : client :=
  {| is_connected := true; is_close := true;
     is_connected_websocket := true;
     is_reconnect := is_reconnect c;
     connect_count := 0;
     max_connect_attempts := max_connect_attempts c;
     reconnect_timer := Some Pending;
     connect_timer := connect_timer c;
     listening := listening c; subscribed := S (subscribed c);
     ws_connect_calls := ws_connect_calls c |}.

(** [_delayed_reconnect_reset], when its one-second sleep is over. *)
Definition delayed_reconnect_reset (c : client) : client :=
  match reconnect_timer c with
  | Some Pending => set_reconnect_timer (Some Done) (set_is_reconnect false c)
  | _ => c
  end.

(** [_on_websocket_error]: give up when the counter is above the cap,
    otherwise count the failure and (re)start the three-second
    [_delayed_reconnect] task. *)
Definition on_websocket_error (c : client) : client :=
  if max_connect_attempts c <? connect_count c then c
  else
    let c1 := set_connect_count (connect_count c + 1) c in
    let c2 := set_connect_timer (cancel <$> connect_timer c1) c1 in
    set_connect_timer (Some Pending) c2.

(** [init_websocket]; [ok] is the outcome of [session.ws_connect].
    Returns the new state and the boolean result. *)
Definition init_websocket (ok : bool) (c : client) : client * bool :=
  let c0 :=
    {| is_connected := is_connected c; is_close := is_close c;
       is_connected_websocket := is_connected_websocket c;
       is_reconnect := is_reconnect c;
       connect_count := connect_count c;
       max_connect_attempts := max_connect_attempts c;
       reconnect_timer := reconnect_timer c;
       connect_timer := connect_timer c;
       listening := listening c; subscribed := subscribed c;
       ws_connect_calls := S (ws_connect_calls c) |} in
  if ok then (set_listening true (on_websocket_open c0), true)
  else (on_websocket_error c0, false).

Definition connect_websocket (ok : bool) (c : client) : client * bool :=
  init_websocket ok c.

(** The task stored in [connect_timer] finishes: it ends as done, or
    stays cancelled / replaced when its body rescheduled a new one. *)
Definition finish_running (c : client) : client :=
  match connect_timer c with
  | Some Running => set_connect_timer (Some Done) c
  | _ => c
  end.

(** [_delayed_reconnect], when its three-second sleep is over.  Only a
    pending task ever runs. *)
Definition delayed_reconnect (ok : bool) (c : client) : client :=
  match connect_timer c with
  | Some Pending =>
      finish_running (fst (connect_websocket ok (set_connect_timer (Some Running) c)))
  | _ => c
  end.

(** [_on_websocket_close], reached from the listen loop. *)
Definition on_websocket_close (ok : bool) (c : client) : client :=
  let c1 := set_is_connected false c in
  if is_reconnect c1 then c1
  else if is_close c1 then
    fst (connect_websocket ok (set_connect_timer (cancel <$> connect_timer c1) c1))
  else c1.

(** What can happen to a client: the coordinator's first
    [init_websocket], the reconnect timer firing, the flag-clearing
    timer firing, and an error or a close frame read by the listen loop
    (which then ends). *)
Inductive event :=
| EvInit (ok : bool)
| EvReconnectTimer (ok : bool)
| EvResetTimer
| EvStreamError
| EvStreamClose (ok : bool).

Definition step (c : client) (e : event) : client :=
  match e with
  | EvInit ok => fst (init_websocket ok c)
  | EvReconnectTimer ok => delayed_reconnect ok c
  | EvResetTimer => delayed_reconnect_reset c
  | EvStreamError =>
      if listening c
      then set_is_connected false (set_listening false (on_websocket_error c))
      else c
  | EvStreamClose ok =>
      if listening c
      then set_is_connected false (on_websocket_close ok (set_listening false c))
      else c
  end.

Definition run (c : client) (es : list event) : client := fold_left step es c.

(** A reconnect is scheduled when a [_delayed_reconnect] task waits. *)
Definition reconnect_scheduled (c : client) : bool :=
  match connect_timer c with Some Pending => true | _ => false end.

(** The run in which every connection attempt fails: the first
    [init_websocket] and then [n] firings of the reconnect timer. *)
Definition all_fail (n : nat) : list event :=
  EvInit false :: repeat (EvReconnectTimer false) n.

(** [disconnect]: the do-not-reconnect flag is set first, both timers
    and the listen task are cancelled, the socket and the session are
    closed. *)
Definition disconnect (c : client) : client :=
  {| is_connected := false; is_close := is_close c;
     is_connected_websocket := is_connected_websocket c;
     is_reconnect := true;
     connect_count := connect_count c;
     max_connect_attempts := max_connect_attempts c;
     reconnect_timer := cancel <$> reconnect_timer c;
     connect_timer := cancel <$> connect_timer c;
     listening := false; subscribed := subscribed c;
     ws_connect_calls := ws_connect_calls c |}.

(** What can happen to a client, a call of [disconnect] included. *)
Inductive action :=
| Happens (e : event)
| CallDisconnect.

Definition perform (c : client) (a : action) : client :=
  match a with
  | Happens e => step c e
  | CallDisconnect => disconnect c
  end.

Definition perform_all (c : client) (acts : list action) : client :=
  fold_left perform acts c.

(** The events that are not a call of [init_websocket] from outside. *)
Definition spontaneous (e : event) : bool :=
  match e with
  | EvInit _ => false
  | _ => true
  end.

(** The failure counter stays between 0 and one above the cap. *)
Definition count_in_range (c : client) : Prop :=
  max_connect_attempts c = 30 /\ 0 <= connect_count c <= 31.

End WebSocketClient.

(* ===================================================================== *)
(** * Python values *)
(* ===================================================================== *)

Module Py.

(** The scalar JSON values found in device records and push frames. *)
Inductive value :=
| PNone
| PBool (b : bool)
| PInt (n : Z)
| PStr (s : string).

#[global] Instance value_eq_dec : EqDecision value.
Proof. solve_decision. Defined.

(** Python's [==] on these values: [True == 1] and [False == 0]. *)
Definition py_eq (x y : value) : bool :=
  match x, y with
  | PNone, PNone => true
  | PBool a, PBool b => bool_decide (a = b)
  | PBool a, PInt n | PInt n, PBool a => n =? (if a then 1 else 0)
  | PInt m, PInt n => m =? n
  | PStr s, PStr t => bool_decide (s = t)
  | _, _ => false
  end.

(** Truth value of an object, as tested by [if x] and [not x]. *)
Definition truthy (x : value) : bool :=
  match x with
  | PNone => false
  | PBool b => b
  | PInt n => negb (n =? 0)
  | PStr s => negb (bool_decide (s = ""%string))
  end.

(** A dict with string keys and scalar values. *)
Abbreviation dict := (gmap string value).

(** [d.get(k)] *)
Definition get (k : string) (d : dict) : value := default PNone (d !! k).

(** [d.get(k, dflt)] *)
Definition get_default (k : string) (dflt : value) (d : dict) : value :=
  default dflt (d !! k).

End Py.

(* ===================================================================== *)
(** * coordinator.py: [MindorDataUpdateCoordinator] *)
(* ===================================================================== *)

Module Coordinator.
Import Py.

(** One [{act, val}] entry of a [device_act_status] list or of an
    [act_arr]. *)
Abbreviation act_entry := (gmap string value).

(** A device record: its scalar fields and, when the key is present,
    its [device_act_status] list. *)
Record device := Device {
  fields : dict;
  device_act_status : option (list act_entry)
}.

(** Device records are objects: the coordinator's lists and the
    entities hold addresses into a store. *)
Definition loc := nat.
Abbreviation store := (gmap loc device).

(** The attributes of the coordinator the synchronisation uses:
    [self.devices], [self.data] (set by the base class to the value
    returned by [_async_update_data]) and a count of the calls to
    [async_update_listeners]. *)
Record coordinator := Coord {
  devices : list loc;
  data : option (list loc);
  notified : nat
}.

(** The nested device message of a push frame. *)
Record ws_message := WsMessage {
  msg_fields : dict;
  act_arr : option (list act_entry)
}.

(** A decoded push frame: [message.get("type")] and the nested message
    when the key is present and holds a dict. *)
Record frame := Frame {
  frame_type : value;
  frame_message : option ws_message
}.

(** [item.get("act") == act_name] for a string [act_name]. *)
Definition has_act (act_name : string) (item : act_entry) : bool :=
  py_eq (get "act" item) (PStr act_name).

(** The dict [{"act": act_name, "val": new_value}]. *)
Definition new_entry (act_name : string) (new_value : value) : act_entry :=
  <["val" := new_value]> {["act" := PStr act_name]}.

(** [_update_act_status]: the first entry with this act gets the new
    value, otherwise a new entry is appended. *)
Fixpoint update_act_status (act_status : list act_entry)
    (act_name : string) (new_value : value) : list act_entry :=
  match act_status with
  | [] => [ new_entry act_name new_value ]
  | item :: rest =>
      if has_act act_name item
      then <["val" := new_value]> item :: rest
      else item :: update_act_status rest act_name new_value
  end.

(** A sequence of upserts applied in order. *)
Definition apply_upserts (act_status : list act_entry)
    (ups : list (string * value)) : list act_entry :=
  fold_left (fun l u => update_act_status l (fst u) (snd u)) ups act_status.

(** The value of the last upsert for [act_name] in a sequence. *)
Fixpoint last_upsert (ups : list (string * value)) (act_name : string)
    : option value :=
  match ups with
  | [] => None
  | (a, v) :: rest =>
      match last_upsert rest act_name with
      | Some w => Some w
      | None => if bool_decide (a = act_name) then Some v else None
      end
  end.

(** The entries of a list that carry the act [a]. *)
Definition entries_of (a : string) (act_status : list act_entry)
    : list act_entry :=
  List.filter (has_act a) act_status.

(** At most one entry per act name. *)
Definition unique_acts (act_status : list act_entry) : Prop :=
  forall a : string, (length (entries_of a act_status) <= 1)%nat.

Definition set_field (k : string) (v : value) (d : device) : device :=
  {| fields := <[k := v]> (fields d); device_act_status := device_act_status d |}.

Definition set_act_status (l : list act_entry) (d : device) : device :=
  {| fields := fields d; device_act_status := Some l |}.


(** [act_val.replace(".", "").isdigit()] and [float(act_val)] on ASCII
    text: the test holds when the text without its dots is a non-empty
    run of digits; [float] then accepts it when it has at most one dot
    and raises [ValueError] otherwise. *)
Definition is_digit (c : ascii) : bool :=
  (48 <=? Z.of_nat (nat_of_ascii c)) && (Z.of_nat (nat_of_ascii c) <=? 57).

Definition is_dot (c : ascii) : bool := bool_decide (c = "."%char).

Definition without_dots (s : string) : list ascii :=
  List.filter (fun c => negb (is_dot c)) (list_ascii_of_string s).

Definition isdigit (cs : list ascii) : bool :=
  match cs with
  | [] => false
  | _ => forallb is_digit cs
  end.

Definition count_dots (s : string) : nat :=
  length (List.filter is_dot (list_ascii_of_string s)).

(** Whether computing [power_value] raises: [act_val] has no [replace]
    method, or [float] rejects the text that passed the digit test. *)
Definition power_value_raises (act_val : value) : bool :=
  match act_val with
  | PStr s => isdigit (without_dots s) && (2 <=? count_dots s)%nat
  | _ => true
  end.

(** The body of the loop over [act_arr] for one entry.  [None] is an
    exception, which only the ["power"] branch can raise. *)
Definition apply_act (act : act_entry) (d : device) : option device :=
  let act_type := get "act" act in
  let act_val := get "val" act in
  let act_status := default [] (device_act_status d) in
  if py_eq act_type (PStr "source") then
    Some (set_field "l1_state" (PBool (negb (py_eq act_val (PStr "off")))) d)
  else if py_eq act_type (PStr "power") then
    if power_value_raises act_val then None
    else Some (set_act_status (update_act_status act_status "power" act_val) d)
  else if py_eq act_type (PStr "thermoregulation") then
    Some (set_act_status (update_act_status act_status "thermoregulation" act_val) d)
  else if py_eq act_type (PStr "mode") then
    Some (set_act_status (update_act_status act_status "mode" act_val) d)
  else if py_eq act_type (PStr "airSwing") then
    Some (set_act_status (update_act_status act_status "airSwing" act_val) d)
  else if py_eq act_type (PStr "windGear") then
    Some (set_act_status (update_act_status act_status "windGear" act_val) d)
  else if py_eq act_type (PStr "On") then
    Some (set_act_status (update_act_status act_status "On" act_val) d)
  else Some d.

(** The loop over [act_arr].  The device is mutated in place, so an
    exception keeps what the earlier entries did: the result is the
    device reached and whether the loop completed. *)
Fixpoint apply_acts (acts : list act_entry) (d : device) : device * bool :=
  match acts with
  | [] => (d, true)
  | act :: rest =>
      match apply_act act d with
      | Some d' => apply_acts rest d'
      | None => (d, false)
      end
  end.

(** The body run for the matching device [self.devices[i]]. *)
Definition update_matching (msg : ws_message) (d : device) : device * bool :=
  let d0 :=
    match device_act_status d with
    | None => set_act_status [] d
    | Some _ => d
    end in
  let '(d1, ok) :=
    match act_arr msg with
    | Some (act :: rest) => apply_acts (act :: rest) d0
    | _ => (d0, true)
    end in
  if ok then
    if py_eq (get "type" (msg_fields msg)) (PStr "status") then
      (set_field "online"
         (PBool (py_eq (get "data" (msg_fields msg)) (PStr "online"))) d1, true)
    else (d1, true)
  else (d1, false).

(** The test of the loop over [self.devices]. *)
Definition matches (device_id : value) (d : device) : bool :=
  py_eq (get "device_id" (fields d)) device_id
  || py_eq (get "id" (fields d)) device_id.

(** The address of the first device of the list that matches. *)
Fixpoint find_device (h : store) (device_id : value) (ls : list loc)
    : option loc :=
  match ls with
  | [] => None
  | l :: rest =>
      match h !! l with
      | Some d => if matches device_id d then Some l
                  else find_device h device_id rest
      | None => find_device h device_id rest
      end
  end.

(** [_update_device_from_websocket]: the first matching device is
    updated in the store; the listeners are notified unless an
    exception ended the update. *)
Definition update_device_from_websocket (msg : ws_message)
    (h : store) (co : coordinator) : store * coordinator :=
  let device_id := get "device_id" (msg_fields msg) in
  if negb (truthy device_id) then (h, co)
  else
    match find_device h device_id (devices co) with
    | None => (h, co)
    | Some l =>
        match h !! l with
        | None => (h, co)
        | Some d =>
            let '(d', ok) := update_matching msg d in
            (<[l := d']> h,
             if ok then {| devices := devices co; data := data co;
                           notified := S (notified co) |}
             else co)
        end
    end.

(** [_handle_websocket_message] *)
Definition handle_websocket_message (f : frame)
    (h : store) (co : coordinator) : store * coordinator :=
  if py_eq (frame_type f) (PStr "welcome") then (h, co)
  else if py_eq (frame_type f) (PStr "ping") then (h, co)
  else
    match frame_message f with
    | Some msg =>
        if truthy (get "device_id" (msg_fields msg))
        then update_device_from_websocket msg h co
        else (h, co)
    | None => (h, co)
    end.







(** The device list returned by a successful REST refresh, stored at
    fresh addresses: [self.devices = data["records"]], and the base
    class keeps the returned list as [self.data]. *)
Definition fresh (h : store) : loc := S (max_list (elements (dom h))).

Fixpoint alloc (h : store) (ds : list device) : store * list loc :=
  match ds with
  | [] => (h, [])
  | d :: rest =>
      let l := fresh h in
      let '(h', ls) := alloc (<[l := d]> h) rest in
      (h', l :: ls)
  end.

Definition async_update_data (records : list device)
    (h : store) (co : coordinator) : store * coordinator :=
  let '(h', ls) := alloc h records in
  (h', {| devices := ls; data := Some ls; notified := notified co |}).



(** The loop of the entities over [coordinator.data]: the address of
    the first record of the list with the given [id]. *)
Fixpoint find_by_id (h : store) (id : value) (ls : list loc) : option loc :=
  match ls with
  | [] => None
  | l :: rest =>
      match h !! l with
      | Some d => if py_eq (get "id" (fields d)) id then Some l
                  else find_by_id h id rest
      | None => find_by_id h id rest
      end
  end.

End Coordinator.

(* ===================================================================== *)
(** * utils.py: [CommandDebouncer] and [debounce_command] *)
(* ===================================================================== *)

Module Utils.

Local Open Scope Qc_scope.

(** [a < b] on clock readings. *)
Definition Qcltb (a b : Qc) : bool :=
  match a ?= b with Lt => true | _ => false end.

(** The attributes of a [CommandDebouncer]. *)
Record CommandDebouncer := Debouncer {
  interval : Qc;
  last_command_time : gmap string Qc;
  is_processing : gmap string bool
}.

(** [CommandDebouncer(interval)] *)
Definition new_debouncer (i : Qc) : CommandDebouncer :=
  {| interval := i; last_command_time := ∅; is_processing := ∅ |}.

(** The default value of the constructor's [interval] argument. *)
Definition default_interval : Qc := Q2Qc (3 # 10).

(** [can_execute_command]; [current_time] is the reading of
    [time.time()]. *)
Definition can_execute_command (current_time : Qc) (entity_id : string)
    (d : CommandDebouncer) : bool :=
  let last_time := default 0 (last_command_time d !! entity_id) in
  let processing := default false (is_processing d !! entity_id) in
  if processing then false
  else if Qcltb (current_time - last_time) (interval d) then false
  else true.

(** [mark_command_start]; [now] is its own reading of [time.time()]. *)
Definition mark_command_start (now : Qc) (entity_id : string)
    (d : CommandDebouncer) : CommandDebouncer :=
  {| interval := interval d;
     last_command_time := <[entity_id := now]> (last_command_time d);
     is_processing := <[entity_id := true]> (is_processing d) |}.

(** [mark_command_end] *)
Definition mark_command_end (entity_id : string)
    (d : CommandDebouncer) : CommandDebouncer :=
  {| interval := interval d;
     last_command_time := last_command_time d;
     is_processing := <[entity_id := false]> (is_processing d) |}.

(** [reset_entity] *)
Definition reset_entity (entity_id : string)
    (d : CommandDebouncer) : CommandDebouncer :=
  {| interval := interval d;
     last_command_time := delete entity_id (last_command_time d);
     is_processing := delete entity_id (is_processing d) |}.

(** The gate of the decorator's wrapper: the check and, when it passes,
    the mark.  [t_check] and [t_mark] are the two clock readings. *)
Definition try_acquire (t_check t_mark : Qc) (entity_id : string)
    (d : CommandDebouncer) : CommandDebouncer * bool :=
  if can_execute_command t_check entity_id d
  then (mark_command_start t_mark entity_id d, true)
  else (d, false).

(** The debouncer objects of the process: the module-level
    [_global_debouncer] and the ones the decorator created. *)
Record debouncers := Debouncers {
  global_debouncer : CommandDebouncer;
  private_debouncers : list CommandDebouncer
}.

(** The state when the module has been imported:
    [_global_debouncer = CommandDebouncer()]. *)
Definition module_init : debouncers :=
  {| global_debouncer := new_debouncer default_interval;
     private_debouncers := [] |}.

(** The debouncer a wrapper closes over. *)
Inductive debouncer_ref :=
| GlobalRef
| PrivateRef (n : nat).

(** [debounce_command(interval, use_global)(func)]: the debouncer is
    chosen once, when the method is decorated. *)
Definition debounce_command (i : Qc) (use_global : bool)
    (w : debouncers) : debouncers * debouncer_ref :=
  if use_global then (w, GlobalRef)
  else ({| global_debouncer := global_debouncer w;
           private_debouncers := private_debouncers w ++ [new_debouncer i] |},
        PrivateRef (length (private_debouncers w))).

Definition deref (r : debouncer_ref) (w : debouncers) : option CommandDebouncer :=
  match r with
  | GlobalRef => Some (global_debouncer w)
  | PrivateRef n => private_debouncers w !! n
  end.

Definition assign (r : debouncer_ref) (d : CommandDebouncer)
    (w : debouncers) : debouncers :=
  match r with
  | GlobalRef => {| global_debouncer := d;
                    private_debouncers := private_debouncers w |}
  | PrivateRef n => {| global_debouncer := global_debouncer w;
                       private_debouncers := <[n := d]> (private_debouncers w) |}
  end.

(** The wrapper up to the call of the decorated function: [true] when
    the command goes ahead, [false] when it is dropped. *)
Definition wrapper_enter (r : debouncer_ref) (t_check t_mark : Qc)
    (entity_id : string) (w : debouncers) : debouncers * bool :=
  match deref r w with
  | Some d =>
      let '(d', ok) := try_acquire t_check t_mark entity_id d in
      (assign r d' w, ok)
  | None => (w, false)
  end.

(** The wrapper's [finally] clause. *)
Definition wrapper_exit (r : debouncer_ref) (entity_id : string)
    (w : debouncers) : debouncers :=
  match deref r w with
  | Some d => assign r (mark_command_end entity_id d) w
  | None => w
  end.

(** What happens at one debouncer: a decorated method is called for an
    entity (the wrapper's gate, with its two clock readings), or the
    body of a call that was let through ends and the wrapper's
    [finally] clause runs. *)
Inductive gate_event :=
| Called (entity_id : string) (t_check t_mark : Qc)
| Ended (entity_id : string).

(** A debouncer together with what the wrappers are doing: how many
    bodies are running per entity, and the calls let through so far,
    latest first. *)
Record gate_state := GateState {
  gate : CommandDebouncer;
  running : gmap string nat;
  let_through : list (string * Qc * Qc)
}.

Definition gate_init (i : Qc) : gate_state :=
  {| gate := new_debouncer i; running := ∅; let_through := [] |}.

Definition gate_step (st : gate_state) (ev : gate_event) : gate_state :=
  match ev with
  | Called e t_check t_mark =>
      let '(d, ok) := try_acquire t_check t_mark e (gate st) in
      if ok
      then {| gate := d;
              running := <[e := S (default 0%nat (running st !! e))]> (running st);
              let_through := (e, t_check, t_mark) :: let_through st |}
      else st
  | Ended e =>
      match default 0%nat (running st !! e) with
      | S n => {| gate := mark_command_end e (gate st);
                  running := <[e := n]> (running st);
                  let_through := let_through st |}
      | O => st
      end
  end.

Definition gate_run (st : gate_state) (evs : list gate_event) : gate_state :=
  fold_left gate_step evs st.

(** The start time recorded by the latest call let through for an
    entity. *)
Fixpoint latest_start (e : string) (log : list (string * Qc * Qc)) : option Qc :=
  match log with
  | [] => None
  | (e', _, t_mark) :: rest =>
      if bool_decide (e' = e) then Some t_mark else latest_start e rest
  end.

(** Every call let through came at least [i] after the start recorded
    by the one before it for the same entity. *)
Fixpoint spaced (i : Qc) (log : list (string * Qc * Qc)) : Prop :=
  match log with
  | [] => True
  | (e, t_check, _) :: rest =>
      match latest_start e rest with
      | Some t0 => i <= t_check - t0
      | None => True
      end /\ spaced i rest
  end.

(** What ties the debouncer to the wrappers' bookkeeping. *)
Definition gate_inv (i : Qc) (st : gate_state) : Prop :=
  interval (gate st) = i
  /\ (forall e, (default 0%nat (running st !! e) <= 1)%nat)
  /\ (forall e, default 0%nat (running st !! e) = 1%nat ->
        default false (is_processing (gate st) !! e) = true)
  /\ (forall e, last_command_time (gate st) !! e = latest_start e (let_through st))
  /\ (forall e, default 0%nat (running st !! e) = 0%nat ->
        default false (is_processing (gate st) !! e) = false)
  /\ spaced i (let_through st).

End Utils.

(* ===================================================================== *)
(** * The clock: naive [datetime] values *)
(* ===================================================================== *)

Module Datetime.

(** A [datetime.datetime] as returned by [datetime.now()]. *)
Record datetime := DT {
  year : Z; month : Z; day : Z;
  hour : Z; minute : Z; second : Z; microsecond : Z
}.

Definition is_leap (y : Z) : bool :=
  (y mod 4 =? 0) && (negb (y mod 100 =? 0) || (y mod 400 =? 0)).

(** Days before January 1st of the year. *)
Definition days_before_year (y : Z) : Z :=
  let p := y - 1 in p * 365 + p / 4 - p / 100 + p / 400.

(** Days of the year before the first day of the month. *)
Definition days_before_month (y m : Z) : Z :=
  nth (Z.to_nat m) [0; 0; 31; 59; 90; 120; 151; 181; 212; 243; 273; 304; 334] 0
  + (if (2 <? m) && is_leap y then 1 else 0).

(** The proleptic Gregorian ordinal of the date. *)
Definition ymd2ord (y m d : Z) : Z :=
  days_before_year y + days_before_month y m + d.

(** Microseconds since the start of day 0. *)
Definition to_microseconds (t : datetime) : Z :=
  (((ymd2ord (year t) (month t) (day t) * 24 + hour t) * 60 + minute t) * 60
   + second t) * 1000000 + microsecond t.

(** [(a - b).total_seconds()] *)
Definition total_seconds_between (a b : datetime) : Qc :=
  Q2Qc (Qmake (to_microseconds a - to_microseconds b) 1000000).

Definition digit (n : Z) : ascii := ascii_of_nat (48 + Z.to_nat (n mod 10)).

(** [n] in decimal on two or four digits, zero padded. *)
Definition pad2 (n : Z) : string :=
  String (digit (n / 10)) (String (digit n) EmptyString).

Definition pad4 (n : Z) : string :=
  String (digit (n / 1000)) (String (digit (n / 100)) (pad2 n)).

(** [t.date().isoformat()], for the years 0 to 9999. *)
Definition date_isoformat (t : datetime) : string :=
  (pad4 (year t) ++ "-" ++ pad2 (month t) ++ "-" ++ pad2 (day t))%string.

(** [t.strftime("%Y-%m")], for the years 1000 to 9999. *)
Definition strftime_Ym (t : datetime) : string :=
  (pad4 (year t) ++ "-" ++ pad2 (month t))%string.

End Datetime.

(* ===================================================================== *)
(** * sensor.py: the energy sensors *)
(* ===================================================================== *)

Module Sensor.
Import Py Coordinator Datetime.

Local Open Scope Qc_scope.

(** The [_energy_data] dict: the accumulated energy in kWh and the
    period it belongs to (["today_energy"] and ["last_reset_date"] for
    the day sensor, ["month_energy"] and ["last_reset_month"] for the
    month sensor). *)
Record energy_data := EnergyData {
  energy : Qc;
  last_reset : string
}.

(** The attributes of an energy sensor, and a count of the save tasks
    it has created. *)
Record sensor := SensorState {
  device_id : value;
  stored : option energy_data;
  last_power : option Qc;
  last_update_time : option datetime;
  saves : nat
}.

(** [_calculate_energy_increment]; [now] is the reading of
    [datetime.now()].  Returns the new state and the increment. *)
Definition calculate_energy_increment (now : datetime) (current_power : Qc)
    (s : sensor) : sensor * Qc :=
  match last_power s, last_update_time s with
  | Some last, Some last_time =>
      let time_diff_hours :=
        total_seconds_between now last_time / Q2Qc 3600 in
      let avg_power := (last + current_power) / Q2Qc 2 in
      let energy_increment := avg_power * time_diff_hours / Q2Qc 1000 in
      ({| device_id := device_id s; stored := stored s;
          last_power := Some current_power;
          last_update_time := Some now; saves := saves s |},
       energy_increment)
  | _, _ =>
      ({| device_id := device_id s; stored := stored s;
          last_power := Some current_power;
          last_update_time := Some now; saves := saves s |},
       0)
  end.

(** The trapezoidal estimate in the words of the specification:
    [((last + current) / 2) * elapsedHours / 1000], from the sample
    [p0] at [t0] to the sample [p1] at [t1]. *)
Definition trapezoid (p0 p1 : Qc) (t0 t1 : datetime) : Qc :=
  (p0 + p1) / Q2Qc 2 * (total_seconds_between t1 t0 / Q2Qc 3600) / Q2Qc 1000.

(** The sensor once it has stored the sample [p] taken at [t]. *)
Definition with_sample (p : Qc) (t : datetime) (s : sensor) : sensor :=
  {| device_id := device_id s; stored := stored s;
     last_power := Some p; last_update_time := Some t; saves := saves s |}.

Section WithBuiltins.

(** The builtin [float()]: [None] when it raises [ValueError] or
    [TypeError]. *)
Variable py_float : value -> option Qc.

(** The builtin [round(x, 3)]. *)
Variable py_round3 : Qc -> Qc.

(** How the sensor names the current period: the ISO date for the
    day sensor, ["%Y-%m"] for the month sensor. *)
Variable period_key : datetime -> string.

(** [_check_and_reset_daily] / [_check_and_reset_monthly] *)
Definition check_and_reset (now : datetime) (s : sensor) : sensor :=
  match stored s with
  | None => s
  | Some e =>
      let current := period_key now in
      if bool_decide (last_reset e = current) then s
      else {| device_id := device_id s;
              stored := Some {| energy := 0; last_reset := current |};
              last_power := last_power s;
              last_update_time := last_update_time s;
              saves := saves s |}
  end.

(** [_get_current_device_data]: the first record of
    [coordinator.data] whose [id] is the sensor's. *)
Fixpoint lookup_by_id (h : store) (id : value) (ls : list loc)
    : option device :=
  match ls with
  | [] => None
  | l :: rest =>
      match h !! l with
      | Some d => if py_eq (get "id" (fields d)) id then Some d
                  else lookup_by_id h id rest
      | None => lookup_by_id h id rest
      end
  end.

Definition get_current_device_data (h : store) (co : coordinator)
    (s : sensor) : option device :=
  match data co with
  | Some (l :: ls) => lookup_by_id h (device_id s) (l :: ls)
  | _ => None
  end.

(** The loop of [native_value] over [device_act_status]: the value
    of the first ["power"] entry that [float()] accepts. *)
Fixpoint current_power_of (act_status : list act_entry) : option Qc :=
  match act_status with
  | [] => None
  | item :: rest =>
      if has_act "power" item then
        match get "val" item with
        | PNone => current_power_of rest
        | v => match py_float v with
               | Some p => Some p
               | None => current_power_of rest
               end
        end
      else current_power_of rest
  end.

Definition add_energy (inc : Qc) (s : sensor) : sensor :=
  match stored s with
  | Some e =>
      {| device_id := device_id s;
         stored := Some {| energy := energy e + inc;
                           last_reset := last_reset e |};
         last_power := last_power s;
         last_update_time := last_update_time s;
         saves := S (saves s) |}
  | None => s
  end.

(** The part of [native_value] after the reset check: the current
    power is read from the coordinator's data and integrated; a save
    task is created when the increment is positive. *)
Definition integrate_power (t_sample : datetime)
    (h : store) (co : coordinator) (s1 : sensor) : sensor :=
  match get_current_device_data h co s1 with
  | Some device_data =>
      match current_power_of (default [] (device_act_status device_data)) with
      | Some current_power =>
          let '(s', energy_increment) :=
            calculate_energy_increment t_sample current_power s1 in
          if Utils.Qcltb 0 energy_increment
          then add_energy energy_increment s'
          else s'
      | None => s1
      end
  | None => s1
  end.

(** The [native_value] property.  [t_check] is the clock reading of
    the reset check and [t_sample] the one of the increment.
    Returns the new state and the value shown. *)
Definition native_value (t_check t_sample : datetime)
    (h : store) (co : coordinator) (s : sensor) : sensor * option Qc :=
  match stored s with
  | None => (s, None)
  | Some _ =>
      let s1 := check_and_reset t_check s in
      let s2 := integrate_power t_sample h co s1 in
      (s2, py_round3 <$> (energy <$> stored s2))
  end.

End WithBuiltins.

(** The two sensor classes differ in how they name the period. *)
Module MindorTodayEnergySensor.
Definition check_and_reset_daily := check_and_reset date_isoformat.
Definition native_value (py_float : value -> option Qc)
    (py_round3 : Qc -> Qc) :=
  Sensor.native_value py_float py_round3 date_isoformat.
End MindorTodayEnergySensor.

Module MindorMonthEnergySensor.
Definition check_and_reset_monthly := check_and_reset strftime_Ym.
Definition native_value (py_float : value -> option Qc)
    (py_round3 : Qc -> Qc) :=
  Sensor.native_value py_float py_round3 strftime_Ym.
End MindorMonthEnergySensor.

(** What [Store.async_load] does: it raises, or it returns what was
    saved ([None] when nothing was saved). *)
Inductive loaded (A : Type) :=
| LoadRaises
| LoadReturns (x : option A).
Arguments LoadRaises {A}.
Arguments LoadReturns {A} x.

(** The record of the older, combined storage key: any of its four
    entries may be missing. *)
Record legacy_record := LegacyRecord {
  today_energy : option Qc;
  last_reset_date : option string;
  month_energy : option Qc;
  last_reset_month : option string
}.

(** A sensor as [__init__] leaves it. *)
Definition new_sensor (id : value) : sensor :=
  {| device_id := id; stored := None; last_power := None;
     last_update_time := None; saves := 0 |}.

Definition set_stored (e : energy_data) (s : sensor) : sensor :=
  {| device_id := device_id s; stored := Some e;
     last_power := last_power s; last_update_time := last_update_time s;
     saves := saves s |}.

(** [_load_energy_data]: the sensor's own record when there is one,
    else the legacy record, else zero for the current period; zero for
    the current period also when loading raises.  [energy_of] and
    [reset_of] read the sensor's two entries of the legacy record. *)
Definition load_energy_data (period_key : datetime -> string)
    (energy_of : legacy_record -> option Qc)
    (reset_of : legacy_record -> option string)
    (now : datetime) (own : loaded energy_data) (legacy : loaded legacy_record)
    (s : sensor) : sensor :=
  let fresh := {| energy := 0; last_reset := period_key now |} in
  match own with
  | LoadRaises => set_stored fresh s
  | LoadReturns (Some data) => set_stored data s
  | LoadReturns None =>
      match legacy with
      | LoadRaises => set_stored fresh s
      | LoadReturns (Some lg) =>
          set_stored {| energy := default 0 (energy_of lg);
                        last_reset := default (period_key now) (reset_of lg) |} s
      | LoadReturns None => set_stored fresh s
      end
  end.

(** One read of [native_value]: its two clock readings and the store
    and coordinator it sees. *)
Record reading := Reading {
  t_check : datetime;
  t_sample : datetime;
  seen_store : store;
  seen_coordinator : coordinator
}.

(** The sensor after a sequence of reads. *)
Definition read_all (py_float : value -> option Qc) (py_round3 : Qc -> Qc)
    (period_key : datetime -> string) (rs : list reading) (s : sensor) : sensor :=
  fold_left
    (fun s r => fst (native_value py_float py_round3 period_key
                       (t_check r) (t_sample r)
                       (seen_store r) (seen_coordinator r) s))
    rs s.

(** The loaders of the two sensor classes. *)
Definition load_today_energy_data :=
  load_energy_data date_isoformat today_energy last_reset_date.

Definition load_month_energy_data :=
  load_energy_data strftime_Ym month_energy last_reset_month.

Module MindorPowerSensor.

(** [MindorPowerSensor.native_value]: the value of the first
    ["power"] entry that [float()] accepts, in the sensor's record of
    [coordinator.data]. *)
Definition native_value (py_float : value -> option Qc)
    (h : store) (co : coordinator) (s : sensor) : option Qc :=
  match get_current_device_data h co s with
  | Some device_data =>
      current_power_of py_float (default [] (device_act_status device_data))
  | None => None
  end.

End MindorPowerSensor.

End Sensor.

(* ===================================================================== *)
(** * request_config.py: [RequestConfig] *)
(* ===================================================================== *)

Module MD5.

(** [hashlib.md5] (RFC 1321) on a list of bytes, with 32-bit words
    held in [Z]. *)
Definition w32 (x : Z) : Z := x mod 4294967296.

Definition rotl (x : Z) (c : Z) : Z :=
  w32 (Z.lor (Z.shiftl x c) (Z.shiftr x (32 - c))).

Definition not32 (x : Z) : Z := Z.lxor x 4294967295.

Definition shifts : list Z :=
  [7; 12; 17; 22; 7; 12; 17; 22; 7; 12; 17; 22; 7; 12; 17; 22;
   5; 9; 14; 20; 5; 9; 14; 20; 5; 9; 14; 20; 5; 9; 14; 20;
   4; 11; 16; 23; 4; 11; 16; 23; 4; 11; 16; 23; 4; 11; 16; 23;
   6; 10; 15; 21; 6; 10; 15; 21; 6; 10; 15; 21; 6; 10; 15; 21].

(** [floor(2^32 * abs(sin(i + 1)))] for [i] from 0 to 63. *)
Definition sines : list Z :=
  [
    3614090360; 3905402710; 606105819; 3250441966;
    4118548399; 1200080426; 2821735955; 4249261313;
    1770035416; 2336552879; 4294925233; 2304563134;
    1804603682; 4254626195; 2792965006; 1236535329;
    4129170786; 3225465664; 643717713; 3921069994;
    3593408605; 38016083; 3634488961; 3889429448;
    568446438; 3275163606; 4107603335; 1163531501;
    2850285829; 4243563512; 1735328473; 2368359562;
    4294588738; 2272392833; 1839030562; 4259657740;
    2763975236; 1272893353; 4139469664; 3200236656;
    681279174; 3936430074; 3572445317; 76029189;
    3654602809; 3873151461; 530742520; 3299628645;
    4096336452; 1126891415; 2878612391; 4237533241;
    1700485571; 2399980690; 4293915773; 2240044497;
    1873313359; 4264355552; 2734768916; 1309151649;
    4149444226; 3174756917; 718787259; 3951481745].

Definition state := (Z * Z * Z * Z)%type.

Definition initial : state := (1732584193, 4023233417, 2562383102, 271733878).

(** One of the 64 operations on the block [m] of sixteen words. *)
Definition operation (m : list Z) (st : state) (i : nat) : state :=
  let '(a, b, c, d) := st in
  let zi := Z.of_nat i in
  let '(f, g) :=
    if (i <? 16)%nat then
      (Z.lor (Z.land b c) (Z.land (not32 b) d), zi)
    else if (i <? 32)%nat then
      (Z.lor (Z.land d b) (Z.land (not32 d) c), (5 * zi + 1) mod 16)
    else if (i <? 48)%nat then
      (Z.lxor (Z.lxor b c) d, (3 * zi + 5) mod 16)
    else
      (Z.lxor c (Z.lor b (not32 d)), (7 * zi) mod 16) in
  let f' := w32 (f + a + nth i sines 0 + nth (Z.to_nat g) m 0) in
  (d, w32 (b + rotl f' (nth i shifts 0)), b, c).

(** Little-endian word of four bytes, and back. *)
Definition word_of_bytes (bs : list Z) : Z :=
  nth 0 bs 0 + 256 * nth 1 bs 0 + 65536 * nth 2 bs 0 + 16777216 * nth 3 bs 0.

Definition bytes_of_word (x : Z) : list Z :=
  [x mod 256; (x / 256) mod 256; (x / 65536) mod 256; (x / 16777216) mod 256].

Fixpoint words (n : nat) (bs : list Z) : list Z :=
  match n with
  | O => []
  | S n' => word_of_bytes (firstn 4 bs) :: words n' (skipn 4 bs)
  end.

Definition process_block (st : state) (block : list Z) : state :=
  let m := words 16 block in
  let '(a0, b0, c0, d0) := st in
  let '(a, b, c, d) := fold_left (operation m) (seq 0 64) st in
  (w32 (a0 + a), w32 (b0 + b), w32 (c0 + c), w32 (d0 + d)).

Fixpoint blocks (n : nat) (bs : list Z) : list (list Z) :=
  match n with
  | O => []
  | S n' => firstn 64 bs :: blocks n' (skipn 64 bs)
  end.

(** The message followed by the byte 0x80, zero bytes up to 56 modulo
    64, and the bit length on eight little-endian bytes. *)
Definition pad (msg : list Z) : list Z :=
  let len := Z.of_nat (length msg) in
  let zeros := Z.to_nat ((55 - len) mod 64) in
  let bits := len * 8 in
  msg ++ [128] ++ repeat 0 zeros
      ++ bytes_of_word (bits mod 4294967296)
      ++ bytes_of_word ((bits / 4294967296) mod 4294967296).

Definition digest (msg : list Z) : list Z :=
  let p := pad msg in
  let '(a, b, c, d) :=
    fold_left process_block (blocks (length p / 64) p) initial in
  bytes_of_word a ++ bytes_of_word b ++ bytes_of_word c ++ bytes_of_word d.

Definition hex_digit (n : Z) : ascii :=
  if n <? 10 then ascii_of_nat (48 + Z.to_nat n)
  else ascii_of_nat (87 + Z.to_nat n).

Fixpoint hex (bs : list Z) : string :=
  match bs with
  | [] => EmptyString
  | b :: rest => String (hex_digit (b / 16)) (String (hex_digit (b mod 16)) (hex rest))
  end.

Definition bytes_of_string (s : string) : list Z :=
  map (fun c => Z.of_nat (nat_of_ascii c)) (list_ascii_of_string s).

(** [hashlib.md5(s.encode("utf-8")).hexdigest()]; a [string] holds the
    UTF-8 bytes of the text. *)
Definition hexdigest (s : string) : string := hex (digest (bytes_of_string s)).

(** The digits [hexdigest] writes: [0-9] and [a-f]. *)
Definition lower_hex (c : ascii) : bool :=
  let n := nat_of_ascii c in
  ((48 <=? n) && (n <=? 57) || (97 <=? n) && (n <=? 102))%nat.

End MD5.

Module RequestConfig.
Import Py.

Local Open Scope string_scope.

(** [string.ascii_letters + string.digits] *)
Definition chars : string :=
  "abcdefghijklmnopqrstuvwxyzABCDEFGHIJKLMNOPQRSTUVWXYZ0123456789".

(** [random.choices(chars, k=length)]: the [i]-th element drawn is
    the one at the index the generator [rng] yields for it, which lies
    below the size of the population. *)
Definition choices (rng : nat -> nat) (population : list ascii)
    (k : nat) : list ascii :=
  map (fun i => nth (rng i mod length population) population "000"%char)
      (seq 0 k).


(** [generate_random_string(length)] *)
Definition generate_random_string (rng : nat -> nat) (len : nat) : string :=
  string_of_list_ascii (choices rng (list_ascii_of_string chars) len).

(** [int(x)] on a float: truncation towards zero. *)
Definition py_int (x : Qc) : Z := Z.quot (Qnum (this x)) (Zpos (Qden (this x))).

(** [str(n)] on an int. *)
Definition str_of_int (n : Z) : string :=
  DecimalString.NilZero.string_of_int (Z.to_int n).

(** [str(v)] *)
Definition py_str (v : value) : string :=
  match v with
  | PNone => "None"
  | PBool true => "True"
  | PBool false => "False"
  | PInt n => str_of_int n
  | PStr s => s
  end.

(** A dict in insertion order. *)
Abbreviation odict := (list (string * value)).

(** [get_opt]; [rng] is the random generator and [now] the reading of
    [time.time()]. *)
Definition get_opt (rng : nat -> nat) (now : Qc) : odict :=
  let truncated_timestamp := py_int now in
  [ ("AppId", PStr "q8mziWq3zcgQLUh8");
    ("Mode", PStr "normal");
    ("NonceStr", PStr (generate_random_string rng 16));
    ("Timestamp", PInt truncated_timestamp);
    ("key", PStr "MjNTazzrYispfNu7yn") ].

(** The bytes [urllib.parse.quote] never escapes. *)
Definition always_safe (c : ascii) : bool :=
  let n := nat_of_ascii c in
  ((65 <=? n) && (n <=? 90) || (97 <=? n) && (n <=? 122)
   || (48 <=? n) && (n <=? 57)
   || bool_decide (c = "_"%char) || bool_decide (c = "."%char)
   || bool_decide (c = "-"%char) || bool_decide (c = "~"%char))%nat.

Definition upper_hex_digit (n : nat) : ascii :=
  if (n <? 10)%nat then ascii_of_nat (48 + n) else ascii_of_nat (55 + n).

(** [urllib.parse.quote_plus(s)]: a space becomes a plus sign, a safe
    byte stays, any other byte becomes [%XX]. *)
Fixpoint quote_plus (s : string) : string :=
  match s with
  | EmptyString => EmptyString
  | String c rest =>
      if bool_decide (c = " "%char) then String "+" (quote_plus rest)
      else if always_safe c then String c (quote_plus rest)
      else
        let n := nat_of_ascii c in
        String "%" (String (upper_hex_digit (n / 16))
                      (String (upper_hex_digit (n mod 16)) (quote_plus rest)))
  end.


Fixpoint join (sep : string) (l : list string) : string :=
  match l with
  | [] => ""
  | [x] => x
  | x :: rest => x ++ sep ++ join sep rest
  end.

(** [urllib.parse.urlencode(obj)] on a dict. *)
Definition urlencode (obj : odict) : string :=
  join "&" (map (fun kv => quote_plus (fst kv) ++ "=" ++ quote_plus (py_str (snd kv))) obj).

(** [object_to_query_string] *)
Definition object_to_query_string (obj : odict) : string := urlencode obj.

(** [generate_sign] *)
Definition generate_sign (opt : odict) : string :=
  let query_string := object_to_query_string opt in
  MD5.hexdigest query_string.


End RequestConfig.

(* ===================================================================== *)
(** * switch.py: [MindorSocketEntity] *)
(* ===================================================================== *)

Module Switch.
Import Py Coordinator.

Local Open Scope Qc_scope.

(** The attributes of a socket entity: [self._device] is a reference
    to a device record; [_last_command_time] exists only once a command
    has succeeded. *)
Record entity := Entity {
  device_ref : loc;
  last_command_time : option Qc
}.

(** [MindorSocketEntity(coordinator, device)]: the entity keeps the
    record it is given, not a copy. *)
Definition new_entity (l : loc) : entity :=
  {| device_ref := l; last_command_time := None |}.


(** The dict [self._device]. *)
Definition local_device (h : store) (e : entity) : dict :=
  default ∅ (fields <$> h !! device_ref e).

(** The loop of [is_on] over [coordinator.data]: [l1_state] of the
    first record with the entity's [id], [False] when there is none. *)
Fixpoint canonical_l1_state (h : store) (id : value) (ls : list loc) : value :=
  match ls with
  | [] => PBool false
  | l :: rest =>
      match h !! l with
      | Some d => if py_eq (get "id" (fields d)) id
                  then get "l1_state" (fields d)
                  else canonical_l1_state h id rest
      | None => canonical_l1_state h id rest
      end
  end.

(** The [is_on] property; [now] is the reading of [time.time()]. *)
Definition is_on (now : Qc) (h : store) (co : coordinator) (e : entity) : value :=
  let from_store :=
    canonical_l1_state h (get "id" (local_device h e)) (default [] (data co)) in
  match last_command_time e with
  | Some t0 =>
      if Utils.Qcltb (now - t0) (Q2Qc 30)
      then get_default "l1_state" (PBool false) (local_device h e)
      else from_store
  | None => from_store
  end.

(** What the device-control endpoint answered. *)
Inductive response :=
| NetworkError
| HttpStatus (code : Z) (errcode : value).



(** The loop of [_send_command] over [coordinator.data]: the first
    record with the entity's [id] gets the new state. *)
Fixpoint write_l1_state (h : store) (id : value) (new_state : bool)
    (ls : list loc) : store :=
  match ls with
  | [] => h
  | l :: rest =>
      match h !! l with
      | Some d => if py_eq (get "id" (fields d)) id
                  then <[l := set_field "l1_state" (PBool new_state) d]> h
                  else write_l1_state h id new_state rest
      | None => write_l1_state h id new_state rest
      end
  end.

(** [_send_command]: [token] is the configured token, [resp] what the
    endpoint answered and [now] the reading of [time.time()] taken on
    success.  Returns the new store and entity and the boolean result. *)
Definition send_command (command : string) (token : value) (resp : response)
    (now : Qc) (h : store) (co : coordinator) (e : entity)
    : store * entity * bool :=
  if negb (truthy token) then (h, e, false)
  else if negb (truthy (get "device_id" (local_device h e))) then (h, e, false)
  else
    match resp with
    | NetworkError => (h, e, false)
    | HttpStatus code errcode =>
        if negb (code =? 200)%Z then (h, e, false)
        else if py_eq errcode (PInt 0) then
          let new_state := bool_decide (command = "on"%string) in
          let h1 :=
            match h !! device_ref e with
            | Some d => <[device_ref e := set_field "l1_state" (PBool new_state) d]> h
            | None => h
            end in
          let h2 :=
            write_l1_state h1 (get "id" (local_device h1 e)) new_state
              (default [] (data co)) in
          (h2, {| device_ref := device_ref e; last_command_time := Some now |}, true)
        else (h, e, false)
    end.

(** [SOCKET_POWER_LIST] of const.py. *)
Definition SOCKET_POWER_LIST : list value :=
  [PStr "BCZ001"; PStr "BPS001"; PStr "ZCZ001"; PStr "ZCZ001"; PStr "ZCQ001";
   PStr "HPS001"; PStr "ZCZ003"; PStr "ZCZ002"; PStr "XPS001"; PStr "XCZ001"].

(** [x in l] on a list. *)
Definition py_in (x : value) (l : list value) : bool :=
  existsb (py_eq x) l.

(** The second loop of [available]: [online] of the first record with
    the entity's [id], [False] when there is no such record or it has
    no such key. *)
Fixpoint current_device_online (h : store) (id : value) (ls : list loc) : value :=
  match ls with
  | [] => PBool false
  | l :: rest =>
      match h !! l with
      | Some d => if py_eq (get "id" (fields d)) id
                  then get_default "online" (PBool false) (fields d)
                  else current_device_online h id rest
      | None => current_device_online h id rest
      end
  end.

(** The first loop of [MindorSocketPowerEntity.available]. *)
Fixpoint any_power_socket_online (h : store) (ls : list loc) : bool :=
  match ls with
  | [] => false
  | l :: rest =>
      match h !! l with
      | Some d => if py_in (get "typ_spu" (fields d)) SOCKET_POWER_LIST
                     && truthy (get "online" (fields d))
                  then true
                  else any_power_socket_online h rest
      | None => any_power_socket_online h rest
      end
  end.

(** The two entity classes of the module. *)
Inductive entity_class :=
| MindorSocketEntity
| MindorSocketPowerEntity.

(** The [available] property of each class. *)
Definition available (cls : entity_class) (h : store) (co : coordinator)
    (e : entity) : value :=
  let devices := default [] (data co) in
  let own := current_device_online h (get "id" (local_device h e)) devices in
  match cls with
  | MindorSocketEntity => own
  | MindorSocketPowerEntity =>
      if any_power_socket_online h devices then PBool true else own
  end.

(** The loop of [MindorSocketPowerEntity.is_on]: it reads with a
    default and falls back on the entity's own record. *)
Fixpoint power_l1_state (h : store) (id : value) (fallback : value)
    (ls : list loc) : value :=
  match ls with
  | [] => fallback
  | l :: rest =>
      match h !! l with
      | Some d => if py_eq (get "id" (fields d)) id
                  then get_default "l1_state" (PBool false) (fields d)
                  else power_l1_state h id fallback rest
      | None => power_l1_state h id fallback rest
      end
  end.

(** [MindorSocketPowerEntity.is_on]; [if self.coordinator.data] skips
    the loop for an empty list as the loop itself does. *)
Definition power_is_on (now : Qc) (h : store) (co : coordinator) (e : entity) : value :=
  let own := get_default "l1_state" (PBool false) (local_device h e) in
  let from_store :=
    power_l1_state h (get "id" (local_device h e)) own (default [] (data co)) in
  match last_command_time e with
  | Some t0 => if Utils.Qcltb (now - t0) (Q2Qc 30) then own else from_store
  | None => from_store
  end.

Definition is_on_of (cls : entity_class) :=
  match cls with
  | MindorSocketEntity => is_on
  | MindorSocketPowerEntity => power_is_on
  end.

(** How a call of [async_turn_on] or [async_turn_off] ended: dropped by
    the decorator, returned because the device is not available, or
    returned after [_send_command] gave its result. *)
Inductive turn_outcome :=
| Dropped
| Unavailable
| Sent (success : bool).

(** The decorated [async_turn_on] ([command = "on"]) and
    [async_turn_off] ([command = "off"]) as one run of the wrapper:
    the gate of the global debouncer, the body, the [finally] clause.
    [entity_id] is the entity's id, [t_check] and [t_mark] the gate's
    clock readings; the other readings are those of [send_command].
    The refresh the body requests after a success is the
    coordinator's own. *)
Definition async_turn (cls : entity_class) (command : string)
    (entity_id : string) (t_check t_mark : Qc)
    (token : value) (resp : response) (now : Qc)
    (w : Utils.debouncers) (h : store) (co : coordinator) (e : entity)
    : Utils.debouncers * store * entity * turn_outcome :=
  let '(w1, ok) := Utils.wrapper_enter Utils.GlobalRef t_check t_mark entity_id w in
  if negb ok then (w1, h, e, Dropped)
  else if negb (truthy (available cls h co e))
  then (Utils.wrapper_exit Utils.GlobalRef entity_id w1, h, e, Unavailable)
  else
    let '(h', e', success) := send_command command token resp now h co e in
    (Utils.wrapper_exit Utils.GlobalRef entity_id w1, h', e', Sent success).

(** Whether some record of the list has the given [id]. *)
Definition listed (h : store) (id : value) (ls : list loc) : bool :=
  existsb (fun l => match h !! l with
                    | Some d => py_eq (get "id" (fields d)) id
                    | None => false
                    end) ls.

End Switch.

(* ===================================================================== *)
(** * websocket_client.py: the client's own device cache *)
(* ===================================================================== *)

Module ClientCache.
Import Py Coordinator.

(** A Python dict whose keys are compared with [==], in insertion
    order. *)
Abbreviation pydict A := (list (value * A)).

Fixpoint dict_get {A} (k : value) (d : pydict A) : option A :=
  match d with
  | [] => None
  | (k', v) :: rest => if py_eq k' k then Some v else dict_get k rest
  end.

Fixpoint dict_set {A} (k : value) (v : A) (d : pydict A) : pydict A :=
  match d with
  | [] => [(k, v)]
  | (k', v') :: rest =>
      if py_eq k' k then (k', v) :: rest else (k', v') :: dict_set k v rest
  end.

(** [equipment_list] holds the device records it was given (the
    coordinator's list); [handle_info] buffers messages per key. *)
Record cache := Cache {
  equipment_list : list loc;
  handle_info : pydict (list ws_message)
}.

(** [f"{device_id}_status"] *)
Definition status_key (device_id : value) : value :=
  PStr (RequestConfig.py_str device_id ++ "_status").

Definition init_key (k : value) (hi : pydict (list ws_message))
    : pydict (list ws_message) :=
  match dict_get k hi with
  | Some _ => hi
  | None => dict_set k [] hi
  end.

(** [update_equipment_list] *)
Definition update_equipment_list (h : store) (ls : list loc) (c : cache) : cache :=
  {| equipment_list := ls;
     handle_info :=
       fold_left
         (fun hi l =>
            match h !! l with
            | Some d =>
                let device_id := get "device_id" (fields d) in
                if truthy device_id
                then init_key (status_key device_id) (init_key device_id hi)
                else hi
            | None => hi
            end)
         ls (handle_info c) |}.

(** The search of [_process_device_message]: the index of the first
    record whose [device_id] is the message's. *)
Fixpoint find_idx (h : store) (device_id : value) (ls : list loc) : option nat :=
  match ls with
  | [] => None
  | l :: rest =>
      match h !! l with
      | Some d =>
          if py_eq (get "device_id" (fields d)) device_id then Some 0%nat
          else S <$> find_idx h device_id rest
      | None => S <$> find_idx h device_id rest
      end
  end.

(** [self.equipment_list[find_idx][k] = v], under the bounds test the
    code makes. *)
Definition set_at (idx : nat) (k : string) (v : value)
    (h : store) (c : cache) : store :=
  match equipment_list c !! idx with
  | Some l =>
      match h !! l with
      | Some d => <[l := set_field k v d]> h
      | None => h
      end
  | None => h
  end.

Definition clear_key (k : value) (c : cache) : cache :=
  {| equipment_list := equipment_list c;
     handle_info :=
       match dict_get k (handle_info c) with
       | Some _ => dict_set k [] (handle_info c)
       | None => handle_info c
       end |}.

(** [_handle_timer_callback] with [callback_type="switch"]. *)
Definition handle_switch_callback (key : value) (item : act_entry) (idx : nat)
    (h : store) (c : cache) : store * cache :=
  let switch_val := get_default "val" (PStr "off") item in
  let is_on := negb (py_eq switch_val (PStr "off")) in
  (set_at idx "isOn" (PBool is_on) h c, clear_key key c).

(** [_handle_timer_callback] with [callback_type="status"], once its
    delay is over. *)
Definition handle_status_callback (key : value) (status_list : list ws_message)
    (idx : nat) (h : store) (c : cache) : store * cache :=
  let is_online :=
    existsb (fun m => py_eq (get "data" (msg_fields m)) (PStr "online"))
            status_list in
  (set_at idx "online" (PBool is_online) h c, clear_key key c).

(** [_process_device_actions] *)
Fixpoint process_device_actions (device_id : value) (acts : list act_entry)
    (idx : nat) (h : store) (c : cache) : store * cache :=
  match acts with
  | [] => (h, c)
  | item :: rest =>
      if py_eq (get "act" item) (PStr "source") then
        let h1 := set_at idx "isOperation" (PBool false) h c in
        let '(h2, c2) := handle_switch_callback device_id item idx h1 c in
        process_device_actions device_id rest idx h2 c2
      else process_device_actions device_id rest idx h c
  end.

(** [_process_device_status] *)
Definition process_device_status (msg : ws_message) (idx : nat)
    (h : store) (c : cache) : store * cache :=
  let key := status_key (get "device_id" (msg_fields msg)) in
  let hi1 := init_key key (handle_info c) in
  let buffered := default [] (dict_get key hi1) ++ [msg] in
  let c1 := {| equipment_list := equipment_list c;
               handle_info := dict_set key buffered hi1 |} in
  let h1 := set_at idx "isOperation" (PBool false) h c1 in
  handle_status_callback key buffered idx h1 c1.

(** [_process_device_message] *)
Definition process_device_message (msg : ws_message)
    (h : store) (c : cache) : store * cache :=
  let device_id := get "device_id" (msg_fields msg) in
  if negb (truthy device_id) then (h, c)
  else
    match find_idx h device_id (equipment_list c) with
    | None => (h, c)
    | Some idx =>
        let '(h1, c1) :=
          match act_arr msg with
          | Some (a :: rest) => process_device_actions device_id (a :: rest) idx h c
          | _ => (h, c)
          end in
        if py_eq (get "type" (msg_fields msg)) (PStr "status")
        then process_device_status msg idx h1 c1
        else (h1, c1)
    end.

(** [_on_websocket_message] on a decoded frame: the client's own
    processing, unless the frame is a ping, and then the coordinator's
    callback. *)
Definition on_websocket_message (f : frame)
    (h : store) (c : cache) (co : coordinator) : store * cache * coordinator :=
  let '(h1, c1) :=
    if negb (py_eq (frame_type f) (PStr "ping")) then
      match frame_message f with
      | Some msg => process_device_message msg h c
      | None => (h, c)
      end
    else (h, c) in
  let '(h2, co2) := handle_websocket_message f h1 co in
  (h2, c1, co2).

(** No key of [handle_info] holds a buffered message. *)
Definition buffers_empty (c : cache) : Prop :=
  Forall (fun kv => snd kv = []) (handle_info c).

End ClientCache.

(* ===================================================================== *)
(** * climate.py: [MindorClimateEntity] *)
(* ===================================================================== *)

Module Climate.
Import Py Coordinator.

Local Open Scope string_scope.

(** Home Assistant's [HVACMode]. *)
Inductive HVACMode := OFF | HEAT | COOL | HEAT_COOL | AUTO | DRY | FAN_ONLY.

(** The attributes of the entity that its methods use: [self._device]
    is a reference to a device record. *)
Record entity := Entity {
  device_ref : loc;
  first_power_on : bool
}.

Definition new_entity (l : loc) : entity :=
  {| device_ref := l; first_power_on := true |}.

(** The dict [self._device]. *)
Definition local_device (h : store) (e : entity) : dict :=
  default ∅ (fields <$> h !! device_ref e).

(** The truth value of a record: a dict is false when it is empty. *)
Definition device_truthy (d : device) : bool :=
  negb (bool_decide (fields d = ∅)) || bool_decide (is_Some (device_act_status d)).

(** [_get_current_device_data], as the address of the record. *)
Definition get_current_device_data (h : store) (co : coordinator)
    (e : entity) : option loc :=
  match data co with
  | Some (l :: ls) => find_by_id h (get "id" (local_device h e)) (l :: ls)
  | _ => None
  end.

(** The loop of [_get_act_status_value]. *)
Fixpoint act_status_value (act_status : list act_entry) (act_name : string)
    : value :=
  match act_status with
  | [] => PNone
  | item :: rest =>
      if has_act act_name item then get "val" item
      else act_status_value rest act_name
  end.

(** [_get_act_status_value] *)
Definition get_act_status_value (device_data : device) (act_name : string)
    : value :=
  act_status_value (default [] (device_act_status device_data)) act_name.

(** [_update_local_device_status]: an upsert into the status list of
    the first record of [coordinator.data] with the entity's [id].
    When that record has no [device_act_status] key the list the loop
    runs on is the default of [get], a new list: the entry appended to
    it is lost. *)
Definition update_local_device_status (act_name new_value : string)
    (h : store) (co : coordinator) (e : entity) : store :=
  match get_current_device_data h co e with
  | Some l =>
      match h !! l with
      | Some d =>
          match device_act_status d with
          | Some act_status =>
              <[l := set_act_status
                       (update_act_status act_status act_name (PStr new_value)) d]> h
          | None => h
          end
      | None => h
      end
  | None => h
  end.

(** [mode_mapping.get(mode, HVACMode.AUTO)] of [hvac_mode]. *)
Definition mode_of (mode : value) : HVACMode :=
  if py_eq mode (PStr "01") then COOL
  else if py_eq mode (PStr "02") then HEAT
  else if py_eq mode (PStr "03") then DRY
  else if py_eq mode (PStr "04") then FAN_ONLY
  else if py_eq mode (PStr "05") then AUTO
  else AUTO.

(** The record [_get_current_device_data] returns, when it is one
    that [if device_data] accepts. *)
Definition current_device (h : store) (co : coordinator) (e : entity)
    : option device :=
  match get_current_device_data h co e with
  | Some l =>
      match h !! l with
      | Some d => if device_truthy d then Some d else None
      | None => None
      end
  | None => None
  end.

(** The [hvac_mode] property. *)
Definition hvac_mode (h : store) (co : coordinator) (e : entity) : HVACMode :=
  match current_device h co e with
  | Some device_data =>
      if py_eq (get_act_status_value device_data "On") (PStr "00") then OFF
      else mode_of (get_act_status_value device_data "mode")
  | None => OFF
  end.

(** [mode_mapping.get(hvac_mode, "05")] of [async_set_hvac_mode]. *)
Definition mode_val (m : HVACMode) : string :=
  match m with
  | COOL => "01"
  | HEAT => "02"
  | DRY => "03"
  | FAN_ONLY => "04"
  | AUTO => "05"
  | _ => "05"
  end.

(** The result of [_send_command]: [token] is the configured token and
    [resp] what the endpoint answered. *)
Definition send_command (token : value) (resp : Switch.response)
    (h : store) (e : entity) : bool :=
  if negb (truthy token) then false
  else if negb (truthy (get "device_id" (local_device h e))) then false
  else
    match resp with
    | Switch.NetworkError => false
    | Switch.HttpStatus code errcode =>
        if negb (code =? 200)%Z then false
        else py_eq errcode (PInt 0)
    end.

(** The body of [async_set_hvac_mode], in a run in which nothing else
    writes to the records while it waits.  [resp1] is the answer to the
    first command it sends and [resp2] the answer to the second, when
    there is one.  Returns the new store and entity, [success], and the
    commands given to [_send_command], in order. *)
Definition async_set_hvac_mode (m : HVACMode) (token : value)
    (resp1 resp2 : Switch.response)
    (h : store) (co : coordinator) (e : entity)
    : store * entity * bool * list (string * string) :=
  match m with
  | OFF =>
      if send_command token resp1 h e
      then (update_local_device_status "On" "00" h co e,
            {| device_ref := device_ref e; first_power_on := true |},
            true, [("switch", "off")])
      else (h, e, false, [("switch", "off")])
  | _ =>
      let current_power :=
        match current_device h co e with
        | Some device_data => get_act_status_value device_data "On"
        | None => PNone
        end in
      if py_eq current_power (PStr "00") then
        if send_command token resp1 h e then
          let h1 := update_local_device_status "On" "01" h co e in
          let e1 := {| device_ref := device_ref e; first_power_on := false |} in
          if send_command token resp2 h1 e1
          then (update_local_device_status "mode" (mode_val m) h1 co e1, e1,
                true, [("switch", "on"); ("mode", mode_val m)])
          else (h1, e1, false, [("switch", "on"); ("mode", mode_val m)])
        else (h, e, false, [("switch", "on")])
      else
        if send_command token resp1 h e
        then (update_local_device_status "mode" (mode_val m) h co e, e,
              true, [("mode", mode_val m)])
        else (h, e, false, [("mode", mode_val m)])
  end.

End Climate.

(* ===================================================================== *)
(** * cover.py: [MindorCurtainEntity] *)
(* ===================================================================== *)

Module Cover.
Import Py Coordinator.

Local Open Scope string_scope.
Local Open Scope Z_scope.

(** The attributes of the entity: [_device_data] is a reference to a
    device record; [is_closed_attr] is the attribute [_is_closed]. *)
Record entity := Entity {
  device_data : loc;
  device_id : value;
  current_position : Z;
  target_position : Z;
  is_opening : bool;
  is_closing : bool;
  is_closed_attr : bool
}.

(** The [is_closed] property. *)
Definition is_closed (e : entity) : bool := current_position e =? 0.

(** [a or b] *)
Definition py_or (a b : value) : value := if truthy a then a else b.

(** [int(v) if str(v).isdigit() else 0] on ASCII text. *)
Definition percent_of (v : value) : Z :=
  match v with
  | PInt n => if 0 <=? n then n else 0
  | PStr s =>
      let cs := list_ascii_of_string s in
      if isdigit cs
      then fold_left (fun acc c => 10 * acc + (Z.of_nat (nat_of_ascii c) - 48)) cs 0
      else 0
  | _ => 0
  end.

(** The loop of [_update_from_device_data]: the position given by the
    first ["curtain_percent"] entry. *)
Fixpoint curtain_percent (act_status : list act_entry) : option Z :=
  match act_status with
  | [] => None
  | status :: rest =>
      if has_act "curtain_percent" status
      then Some (percent_of (get_default "val" (PInt 0) status))
      else curtain_percent rest
  end.

Definition set_position (position : Z) (closed : bool) (e : entity) : entity :=
  {| device_data := device_data e; device_id := device_id e;
     current_position := position; target_position := target_position e;
     is_opening := is_opening e; is_closing := is_closing e;
     is_closed_attr := closed |}.

Definition set_moving (opening closing : bool) (e : entity) : entity :=
  {| device_data := device_data e; device_id := device_id e;
     current_position := current_position e;
     target_position := target_position e;
     is_opening := opening; is_closing := closing;
     is_closed_attr := is_closed_attr e |}.

Definition set_target (position : Z) (e : entity) : entity :=
  {| device_data := device_data e; device_id := device_id e;
     current_position := current_position e; target_position := position;
     is_opening := is_opening e; is_closing := is_closing e;
     is_closed_attr := is_closed_attr e |}.

Definition set_device_data (l : loc) (e : entity) : entity :=
  {| device_data := l; device_id := device_id e;
     current_position := current_position e;
     target_position := target_position e;
     is_opening := is_opening e; is_closing := is_closing e;
     is_closed_attr := is_closed_attr e |}.

(** The status list of the entity's record, [[]] when the key is
    missing. *)
Definition act_status_of (h : store) (e : entity) : list act_entry :=
  default [] (h !! device_data e ≫= device_act_status).

(** [_update_from_device_data]: the [else] of the loop runs when no
    entry was found. *)
Definition update_from_device_data (h : store) (e : entity) : entity :=
  match curtain_percent (act_status_of h e) with
  | Some position => set_position position (position =? 0) e
  | None => set_position (if is_closed_attr e then 0 else 100) (is_closed_attr e) e
  end.

(** [MindorCurtainEntity(coordinator, device_data)] *)
Definition new_entity (h : store) (l : loc) : entity :=
  let d := default ∅ (fields <$> h !! l) in
  update_from_device_data h
    {| device_data := l;
       device_id := py_or (get "device_id" d) (get "id" d);
       current_position := 0; target_position := 0;
       is_opening := false; is_closing := false; is_closed_attr := true |}.

(** [_update_local_device_status]: an upsert into the status list of
    the entity's record, which it creates when the key is missing. *)
Definition update_local_device_status (act_type value : string)
    (e : entity) (h : store) : store :=
  match h !! device_data e with
  | Some d =>
      <[device_data e :=
          set_act_status
            (update_act_status (default [] (device_act_status d)) act_type
               (PStr value)) d]> h
  | None => h
  end.

(** The result of [_send_command]; [resp] is what the endpoint
    answered. *)
Definition send_command (resp : Switch.response) (e : entity) : bool :=
  if negb (truthy (device_id e)) then false
  else
    match resp with
    | Switch.NetworkError => false
    | Switch.HttpStatus code errcode =>
        if negb (code =? 200) then false else py_eq errcode (PInt 0)
    end.

(** [_handle_coordinator_update]: the entity takes the first record of
    [coordinator.devices] that matches its id and reads its position
    from it. *)
Definition handle_coordinator_update (h : store) (co : coordinator)
    (e : entity) : entity :=
  match find_device h (device_id e) (devices co) with
  | Some l => update_from_device_data h (set_device_data l e)
  | None => e
  end.

(** The four decorated methods. *)
Inductive command :=
| OpenCover
| CloseCover
| StopCover
| SetCoverPosition (position : Z).

(** The [await] at which a running body is stopped: one of its calls
    of [_send_command], or the refresh it requests at its end. *)
Inductive waiting :=
| OpenSent
| CloseSentFirst
| CloseSentSecond
| StopSent
| PositionSent (position : Z)
| RefreshRequested.

(** The part of a body up to its first [await]. *)
Definition start (c : command) (h : store) (e : entity)
    : store * entity * waiting :=
  match c with
  | OpenCover => (h, set_moving true false e, OpenSent)
  | CloseCover => (h, set_moving false true e, CloseSentFirst)
  | StopCover =>
      let e1 := set_moving false false e in
      (update_local_device_status "motor_status" "stop" e1 h, e1, StopSent)
  | SetCoverPosition position =>
      let e1 := set_target position e in
      let '(h2, e2) :=
        if current_position e1 <? position
        then (update_local_device_status "motor_status" "opening" e1 h,
              set_moving true false e1)
        else if position <? current_position e1
        then (update_local_device_status "motor_status" "closing" e1 h,
              set_moving false true e1)
        else (h, e1) in
      (update_local_device_status "target_position"
         (RequestConfig.str_of_int position) e2 h2,
       e2, PositionSent position)
  end.

(** ["close" if position == 0 else "open" if position == 100 else
    "partial"] *)
Definition curtain_state (position : Z) : string :=
  if position =? 0 then "close" else if position =? 100 then "open" else "partial".

(** The part of a body from the return of an awaited call to the next
    [await], or to the end of the body ([None]).  [resp] is what the
    endpoint answered to the command that was waited for. *)
Definition resume (w : waiting) (resp : Switch.response) (h : store)
    (e : entity) : store * entity * option waiting :=
  let success := send_command resp e in
  match w with
  | OpenSent =>
      if success then
        let e1 := set_moving false (is_closing e)
                    (set_position 100 false (set_target 100 e)) in
        (update_local_device_status "curtain_state" "open" e1
           (update_local_device_status "motor_status" "stop" e1
              (update_local_device_status "current_position" "100" e1 h)),
         e1, Some RefreshRequested)
      else (h, set_moving false (is_closing e) e, Some RefreshRequested)
  | CloseSentFirst =>
      if success then (h, e, Some CloseSentSecond)
      else (h, set_moving (is_opening e) false e, Some CloseSentSecond)
  | CloseSentSecond =>
      if success then
        let e1 := set_moving (is_opening e) false
                    (set_position 0 true (set_target 0 e)) in
        (update_local_device_status "curtain_state" "close" e1
           (update_local_device_status "motor_status" "stop" e1
              (update_local_device_status "current_position" "0" e1 h)),
         e1, Some RefreshRequested)
      else (h, set_moving (is_opening e) false e, Some RefreshRequested)
  | StopSent => (h, e, Some RefreshRequested)
  | PositionSent position =>
      if success then
        let e1 := set_moving false false
                    (set_position position (position =? 0) e) in
        (update_local_device_status "curtain_state" (curtain_state position) e1
           (update_local_device_status "motor_status" "stop" e1
              (update_local_device_status "current_position"
                 (RequestConfig.str_of_int position) e1 h)),
         e1, Some RefreshRequested)
      else (h, set_moving false false e, Some RefreshRequested)
  | RefreshRequested => (h, e, None)
  end.

(** The device records, the coordinator, the entity, and the [await]
    its running body is stopped at, if one is running. *)
Record state := State {
  records : store;
  coord : coordinator;
  cover : entity;
  waiting_at : option waiting
}.

(** What happens to the entity: a call of a decorated method that the
    debouncer lets through, the return of the call a body waits for,
    the coordinator's listener callback, and anything else writing the
    records or the coordinator's lists. *)
Inductive event :=
| Call (c : command)
| Answer (resp : Switch.response)
| CoordinatorUpdate
| Others (h : store) (co : coordinator).

(** The debouncer lets no call through while a body is running for
    the entity. *)
Definition step (s : state) (ev : event) : state :=
  match ev with
  | Call c =>
      match waiting_at s with
      | None =>
          let '(h, e, w) := start c (records s) (cover s) in
          {| records := h; coord := coord s; cover := e; waiting_at := Some w |}
      | Some _ => s
      end
  | Answer resp =>
      match waiting_at s with
      | Some w =>
          let '(h, e, w') := resume w resp (records s) (cover s) in
          {| records := h; coord := coord s; cover := e; waiting_at := w' |}
      | None => s
      end
  | CoordinatorUpdate =>
      {| records := records s; coord := coord s;
         cover := handle_coordinator_update (records s) (coord s) (cover s);
         waiting_at := waiting_at s |}
  | Others h co =>
      {| records := h; coord := co; cover := cover s;
         waiting_at := waiting_at s |}
  end.

Definition run (s : state) (evs : list event) : state := fold_left step evs s.

(** The state once the entity has been created for the record at
    [l]. *)
Definition init (h : store) (co : coordinator) (l : loc) : state :=
  {| records := h; coord := co; cover := new_entity h l; waiting_at := None |}.

(** What the flags are while a body is stopped at an [await], and
    when none is running. *)
Definition flags_at (w : option waiting) (e : entity) : Prop :=
  match w with
  | Some OpenSent => is_closing e = false
  | Some CloseSentFirst | Some CloseSentSecond => is_opening e = false
  | Some (PositionSent _) => True
  | Some StopSent | Some RefreshRequested | None =>
      is_opening e = false /\ is_closing e = false
  end.

(** The attribute [_is_closed] agrees with the position, and the flags
    are as the running body, if any, has left them. *)
Definition consistent (s : state) : Prop :=
  is_closed_attr (cover s) = is_closed (cover s)
  /\ flags_at (waiting_at s) (cover s).


End Cover.

(* ===================================================================== *)
(** * Concrete devices, frames and runs *)
(* ===================================================================== *)

Module Scenarios.
Import Py Coordinator.

Local Open Scope string_scope.

(** A status list with two entries and three upserts, two of them for
    the same act. *)
Definition status0 : list act_entry :=
  [new_entry "power" (PStr "1"); new_entry "mode" (PStr "01")].

Definition upserts0 : list (string * value) :=
  [("power", PStr "5"); ("On", PStr "1"); ("power", PStr "7")].

(** A socket as the REST device list returns it, stored at address 1,
    and the coordinator after the first refresh. *)
Definition socket0 : device :=
  {| fields := <["id" := PInt 7]> (<["device_id" := PStr "X"]>
                 (<["l1_state" := PBool false]> {["online" := PBool true]}));
     device_act_status := Some status0 |}.

Definition store0 : store := {[ 1%nat := socket0 ]}.

Definition coord0 : coordinator :=
  {| devices := [1%nat]; data := Some [1%nat]; notified := 0 |}.

(** A push frame for the socket with the given action array. *)
Definition push (acts : list act_entry) : frame :=
  {| frame_type := PNone;
     frame_message :=
       Some {| msg_fields := {["device_id" := PStr "X"]};
               act_arr := Some acts |} |}.



(** The builtin [float()] on the values used below: an int, or a text
    of decimal digits. *)
Definition float_of_digits (v : value) : option Qc :=
  match v with
  | PInt n => Some (Q2Qc (inject_Z n))
  | PStr s =>
      let cs := list_ascii_of_string s in
      if isdigit cs
      then Some (Q2Qc (inject_Z
             (fold_left (fun acc c => 10 * acc + (Z.of_nat (nat_of_ascii c) - 48)) cs 0)))
      else None
  | _ => None
  end.

(** A power socket reporting the given power, as [coordinator.data]
    holds it at address 1. *)
Definition power_socket (watts : string) : store :=
  {[ 1%nat := {| fields := {["id" := PInt 7]};
                 device_act_status := Some [new_entry "power" (PStr watts)] |} ]}.

(** The day sensor of that socket with 5 kWh stored for 2024-01-01
    and no sample yet. *)
Definition day_sensor : Sensor.sensor :=
  {| Sensor.device_id := PInt 7;
     Sensor.stored := Some {| Sensor.energy := Q2Qc 5;
                              Sensor.last_reset := "2024-01-01" |};
     Sensor.last_power := None;
     Sensor.last_update_time := None;
     Sensor.saves := 0 |}.

(** The same sensor after a sample of 100 W at [t]. *)
Definition sampled_at (t : Datetime.datetime) : Sensor.sensor :=
  {| Sensor.device_id := PInt 7;
     Sensor.stored := Some {| Sensor.energy := Q2Qc 5;
                              Sensor.last_reset := "2024-01-01" |};
     Sensor.last_power := Some (Q2Qc 100);
     Sensor.last_update_time := Some t;
     Sensor.saves := 0 |}.

Definition jan1_2200 : Datetime.datetime := Datetime.DT 2024 1 1 22 0 0 0.
Definition jan1_2300 : Datetime.datetime := Datetime.DT 2024 1 1 23 0 0 0.
Definition jan1_2330 : Datetime.datetime := Datetime.DT 2024 1 1 23 30 0 0.
Definition jan2_0030 : Datetime.datetime := Datetime.DT 2024 1 2 0 30 0 0.

(** The switch entity that [async_setup_entry] creates for the socket:
    it holds the record at address 1, the one the coordinator holds. *)
Definition entity0 : Switch.entity := Switch.new_entity 1%nat.

(** The endpoint accepts a command. *)
Definition accepted : Switch.response := Switch.HttpStatus 200 (PInt 0).

(** A push frame saying that the socket is off. *)
Definition push_off : frame := push [new_entry "source" (PStr "off")].

(** The coordinator after a later REST refresh: the same socket, in a
    new record at address 2. *)
Definition refreshed : store * coordinator :=
  async_update_data [socket0] store0 coord0.

(** The client's cache once [update_equipment_list] was given the
    coordinator's list, and a push message saying the socket is
    offline. *)
Definition cache0 : ClientCache.cache :=
  ClientCache.update_equipment_list store0 [1%nat]
    {| ClientCache.equipment_list := []; ClientCache.handle_info := [] |}.

Definition offline_msg : ws_message :=
  {| msg_fields := <["device_id" := PStr "X"]>
                     (<["type" := PStr "status"]> {["data" := PStr "offline"]});
     act_arr := None |}.


(** The legacy record of a socket: 5 kWh for 2024-01-01, no month
    entries. *)
Definition legacy_jan1 : Sensor.legacy_record :=
  {| Sensor.today_energy := Some (Q2Qc 5); Sensor.last_reset_date := Some "2024-01-01";
     Sensor.month_energy := None; Sensor.last_reset_month := None |}.

(** An air-conditioner companion that is switched off, stored at
    address 1, and its climate entity. *)
Definition aircon : device :=
  {| fields := <["id" := PInt 9]> {["device_id" := PStr "X"]};
     device_act_status :=
       Some [new_entry "On" (PStr "00"); new_entry "mode" (PStr "01")] |}.

Definition aircon_store : store := {[ 1%nat := aircon ]}.

Definition climate0 : Climate.entity := Climate.new_entity 1%nat.




End Scenarios.

(* ===================================================================== *)
(** * The reconnect cap of the WebSocket client *)
(* ===================================================================== *)

Section WebSocketClientFacts.
Import WebSocketClient.

(** Above the cap the error handler neither counts nor schedules. *)
Lemma on_websocket_error_above_cap (c : client) :
  max_connect_attempts c < connect_count c -> on_websocket_error c = c.
Proof.
  intros H. unfold on_websocket_error.
  destruct (Z.ltb_spec (max_connect_attempts c) (connect_count c)); [done | lia].
Qed.

(** Up to and including the cap it counts the failure and schedules a
    reconnect. *)
Lemma on_websocket_error_below_cap (c : client) :
  connect_count c <= max_connect_attempts c ->
  connect_count (on_websocket_error c) = connect_count c + 1
  /\ reconnect_scheduled (on_websocket_error c) = true.
Proof.
  intros H. unfold on_websocket_error.
  destruct (Z.ltb_spec (max_connect_attempts c) (connect_count c)); [lia | done].
Qed.

Lemma delayed_reconnect_idle (ok : bool) (c : client) :
  reconnect_scheduled c = false -> delayed_reconnect ok c = c.
Proof.
  unfold reconnect_scheduled, delayed_reconnect.
  destruct (connect_timer c) as [[]|]; done.
Qed.

Lemma run_app (c : client) (es fs : list event) :
  run c (es ++ fs) = run (run c es) fs.
Proof. apply fold_left_app. Qed.

Lemma run_idle_timer (c : client) (n : nat) :
  reconnect_scheduled c = false ->
  run c (repeat (EvReconnectTimer false) n) = c.
Proof.
  intros H. induction n as [|n IH]; [done|].
  cbn [repeat]. unfold run in *. cbn [fold_left step].
  rewrite delayed_reconnect_idle; done.
Qed.

Lemma all_fail_split (n m : nat) :
  all_fail (n + m) = all_fail n ++ repeat (EvReconnectTimer false) m.
Proof. unfold all_fail. rewrite repeat_app. done. Qed.

(** C1, evaluated on the run in which every connection attempt fails.
    After 30 consecutive failures the counter is 30, which is not above
    the cap, so a reconnect is still scheduled; the 31st attempt takes
    place, and so does the 32nd; only the 32nd failure finds the counter
    above the cap, and from then on nothing is scheduled and no further
    attempt is made. *)
Theorem connect_cap_overrun :
  (ws_connect_calls (run init (all_fail 29)) = 30%nat
   /\ connect_count (run init (all_fail 29)) = 30
   /\ reconnect_scheduled (run init (all_fail 29)) = true)
  /\ ws_connect_calls (run init (all_fail 30)) = 31%nat
  /\ (forall n : nat, (31 <= n)%nat ->
        ws_connect_calls (run init (all_fail n)) = 32%nat
        /\ reconnect_scheduled (run init (all_fail n)) = false).
Proof.
  split; [by vm_compute|]. split; [by vm_compute|].
  intros n Hn. replace n with (31 + (n - 31))%nat by lia.
  rewrite all_fail_split, run_app, run_idle_timer; by vm_compute.
Qed.

End WebSocketClientFacts.

(* ===================================================================== *)
(** * Upserts into a device's act status *)
(* ===================================================================== *)

Section ActStatusFacts.
Import Py Coordinator.
Implicit Types (l : list act_entry) (a b : string) (v w : value).

Lemma py_eq_str (x : value) (s : string) :
  py_eq x (PStr s) = true <-> x = PStr s.
Proof.
  destruct x; cbn; try (split; [done | congruence]).
  rewrite bool_decide_eq_true. split; congruence.
Qed.

Lemma has_act_set_val a v (item : act_entry) :
  has_act a (<["val" := v]> item) = has_act a item.
Proof. unfold has_act, get. by rewrite lookup_insert_ne. Qed.

Lemma has_act_new a b v : has_act a (new_entry b v) = bool_decide (b = a).
Proof.
  unfold has_act, get, new_entry. rewrite lookup_insert_ne by done.
  rewrite lookup_singleton_eq. done.
Qed.


Lemma new_entry_val a v : get "val" (new_entry a v) = v.
Proof. unfold get, new_entry. by rewrite lookup_insert_eq. Qed.

Lemma has_act_both a b (item : act_entry) :
  has_act a item = true -> has_act b item = true -> a = b.
Proof. unfold has_act. rewrite !py_eq_str. congruence. Qed.

(** An upsert for another act leaves the entries of [a] alone. *)
Lemma entries_of_update_ne a b v l :
  a <> b -> entries_of a (update_act_status l b v) = entries_of a l.
Proof.
  intros Hne. unfold entries_of. induction l as [|item l IH]; cbn.
  - rewrite has_act_new. rewrite bool_decide_eq_false_2; done.
  - destruct (has_act b item) eqn:Hb; cbn.
    + rewrite has_act_set_val.
      destruct (has_act a item) eqn:Ha; [|done].
      destruct Hne. eauto using has_act_both.
    + rewrite IH. done.
Qed.

(** An upsert for [a] rewrites the first entry of [a], or adds the
    only one. *)
Lemma entries_of_update_eq a v l :
  entries_of a (update_act_status l a v) =
    match entries_of a l with
    | [] => [ new_entry a v ]
    | item :: rest => <["val" := v]> item :: rest
    end.
Proof.
  unfold entries_of. induction l as [|item l IH]; cbn.
  - rewrite has_act_new, bool_decide_eq_true_2; done.
  - destruct (has_act a item) eqn:Ha; cbn.
    + rewrite has_act_set_val, Ha. done.
    + rewrite Ha. done.
Qed.

Lemma update_act_status_unique a v l :
  unique_acts l -> unique_acts (update_act_status l a v).
Proof.
  intros Hu b. destruct (decide (b = a)) as [->|Hne].
  - rewrite entries_of_update_eq. specialize (Hu a).
    destruct (entries_of a l); cbn in *; lia.
  - rewrite entries_of_update_ne; done.
Qed.

Lemma apply_upserts_cons l a v ups :
  apply_upserts l ((a, v) :: ups) = apply_upserts (update_act_status l a v) ups.
Proof. done. Qed.


Lemma apply_upserts_unique ups l :
  unique_acts l -> unique_acts (apply_upserts l ups).
Proof.
  revert l. induction ups as [|[a v] ups IH]; intros l Hu; [done|].
  rewrite apply_upserts_cons. eauto using update_act_status_unique.
Qed.

Lemma apply_upserts_untouched a ups l :
  last_upsert ups a = None ->
  entries_of a (apply_upserts l ups) = entries_of a l.
Proof.
  revert l. induction ups as [|[b w] ups IH]; intros l H; [done|].
  cbn in H. destruct (last_upsert ups a) eqn:Hl; [done|].
  case_bool_decide; [done|].
  rewrite apply_upserts_cons, IH by done.
  apply entries_of_update_ne. congruence.
Qed.

Lemma update_act_status_single a v l :
  unique_acts l ->
  exists item, entries_of a (update_act_status l a v) = [item]
               /\ get "val" item = v.
Proof.
  intros Hu. rewrite entries_of_update_eq. specialize (Hu a).
  destruct (entries_of a l) as [|item [|]]; cbn in *; try lia.
  - eexists. split; [done|]. apply new_entry_val.
  - eexists. split; [done|]. unfold get. by rewrite lookup_insert_eq.
Qed.

Lemma apply_upserts_last a v ups l :
  unique_acts l ->
  last_upsert ups a = Some v ->
  exists item, entries_of a (apply_upserts l ups) = [item]
               /\ get "val" item = v.
Proof.
  revert l. induction ups as [|[b w] ups IH]; intros l Hu H; [done|].
  rewrite apply_upserts_cons. cbn in H.
  destruct (last_upsert ups a) eqn:Hl.
  - apply IH; [by apply update_act_status_unique | congruence].
  - case_bool_decide; [|done]. simplify_eq.
    rewrite apply_upserts_untouched by done.
    by apply update_act_status_single.
Qed.

(** C2.  Starting from a status list with at most one entry per act,
    any sequence of upserts leaves at most one entry per act, and for
    every act that was upserted the single entry of that act carries
    the value of the last upsert for it. *)
Theorem upserts_unique_last_write_wins
    (act_status : list act_entry) (ups : list (string * value)) :
  unique_acts act_status ->
  unique_acts (apply_upserts act_status ups)
  /\ forall (a : string) (v : value),
       last_upsert ups a = Some v ->
       exists item : act_entry,
         entries_of a (apply_upserts act_status ups) = [item]
         /\ get "act" item = PStr a
         /\ get "val" item = v.
Proof.
  intros Hu. split; [by apply apply_upserts_unique|].
  intros a v H.
  destruct (apply_upserts_last a v ups act_status Hu H) as (item & He & Hv).
  exists item. split; [done|]. split; [|done].
  assert (Hin : In item (entries_of a (apply_upserts act_status ups)))
    by (rewrite He; by left).
  apply filter_In in Hin as [_ Hin]. by apply py_eq_str.
Qed.

Lemma status0_unique : unique_acts Scenarios.status0.
Proof.
  intros a. unfold Scenarios.status0, entries_of. cbn [List.filter].
  rewrite !has_act_new.
  repeat case_bool_decide; simplify_eq; cbn; lia.
Qed.

Lemma upserts_unique_last_write_wins_witness :
  unique_acts Scenarios.status0
  /\ exists item : act_entry,
       entries_of "power" (apply_upserts Scenarios.status0 Scenarios.upserts0) = [item]
       /\ get "act" item = PStr "power"
       /\ get "val" item = PStr "7".
Proof.
  split; [exact status0_unique|].
  apply (upserts_unique_last_write_wins Scenarios.status0 Scenarios.upserts0);
    [exact status0_unique | reflexivity].
Defined.

End ActStatusFacts.

(* ===================================================================== *)
(** * The push-frame reducer *)
(* ===================================================================== *)

Section ReducerFacts.
Import Py Coordinator.
Implicit Types (d : device) (act : act_entry) (acts : list act_entry).

















End ReducerFacts.

(* ===================================================================== *)
(** * The command debouncer *)
(* ===================================================================== *)

Section DebouncerFacts.
Import Utils.
Local Open Scope Qc_scope.
Implicit Types (d : CommandDebouncer) (e : string) (t : Qc).

Lemma Qcltb_lt (a b : Qc) : Qcltb a b = true <-> a < b.
Proof.
  unfold Qcltb. rewrite Qclt_alt. destruct (a ?= b); split; congruence.
Qed.

Lemma Qcltb_ge (a b : Qc) : Qcltb a b = false <-> b <= a.
Proof.
  rewrite <- not_true_iff_false, Qcltb_lt. split.
  - apply Qcnot_lt_le.
  - apply Qcle_not_lt.
Qed.



(** The interval of the global debouncer is set once, by the module,
    and no operation changes it. *)
Lemma global_interval_init :
  interval (global_debouncer module_init) = default_interval.
Proof. done. Qed.

Lemma global_interval_debounce_command (i : Qc) (g : bool) (w : debouncers) :
  interval (global_debouncer (fst (debounce_command i g w)))
  = interval (global_debouncer w).
Proof. unfold debounce_command. by destruct g. Qed.

Lemma global_interval_wrapper_enter (r : debouncer_ref) t t' e (w : debouncers) :
  interval (global_debouncer (fst (wrapper_enter r t t' e w)))
  = interval (global_debouncer w).
Proof.
  unfold wrapper_enter. destruct (deref r w) as [d|] eqn:Hd; [|done].
  unfold try_acquire. destruct (can_execute_command t e d); destruct r; cbn in *;
    by simplify_eq.
Qed.

Lemma global_interval_wrapper_exit (r : debouncer_ref) e (w : debouncers) :
  interval (global_debouncer (wrapper_exit r e w))
  = interval (global_debouncer w).
Proof.
  unfold wrapper_exit. destruct (deref r w) as [d|] eqn:Hd; [|done].
  destruct r; cbn in *; by simplify_eq.
Qed.

Lemma wrapper_enter_global t t' e (w : debouncers) :
  wrapper_enter GlobalRef t t' e w =
    (assign GlobalRef (fst (try_acquire t t' e (global_debouncer w))) w,
     can_execute_command t e (global_debouncer w)).
Proof.
  unfold wrapper_enter, try_acquire. cbn [deref].
  by destruct (can_execute_command t e (global_debouncer w)).
Qed.

(** C9.  A method decorated with [debounce_command(interval=i,
    use_global=True)] is gated by the global debouncer, whose interval
    is 0.3: the decision does not depend on [i], and once a command has
    been accepted and has ended, the next one is accepted exactly when
    at least 0.3 s have passed since the first one started. *)
Theorem global_debouncer_interval_wins
    (i : Qc) (w : debouncers) (e : string) (t_check t_mark : Qc) :
  interval (global_debouncer w) = default_interval ->
  let decorated := debounce_command i true w in
  let entered := wrapper_enter (snd decorated) t_check t_mark e (fst decorated) in
  fst decorated = w
  /\ snd decorated = GlobalRef
  /\ snd entered =
       negb (default false (is_processing (global_debouncer w) !! e))
       && negb (Qcltb (t_check
                       - default 0 (last_command_time (global_debouncer w) !! e))
                      (Q2Qc (3 # 10)))
  /\ (snd entered = true ->
      forall t t' : Qc,
        snd (wrapper_enter (snd decorated) t t' e
               (wrapper_exit (snd decorated) e (fst entered)))
        = negb (Qcltb (t - t_mark) (Q2Qc (3 # 10)))).
Proof.
  intros Hi. cbv zeta. cbn [debounce_command fst snd].
  split; [done|]. split; [done|].
  rewrite wrapper_enter_global. cbn [fst snd]. split.
  - unfold can_execute_command. rewrite Hi.
    destruct (default false _); [done|]. cbn [negb andb].
    by destruct (Qcltb _ _).
  - intros Hok. intros t t'. unfold try_acquire. rewrite Hok. cbn [fst].
    rewrite wrapper_enter_global. cbn [snd].
    unfold wrapper_exit. cbn. unfold can_execute_command. cbn.
    rewrite !lookup_insert_eq. cbn. rewrite Hi.
    by destruct (Qcltb _ _).
Qed.


Lemma global_debouncer_interval_wins_witness :
  interval (global_debouncer module_init) = default_interval
  /\ snd (wrapper_enter (snd (debounce_command 1 true module_init))
            (Q2Qc (10005 # 10)) (Q2Qc (10005 # 10)) "switch.plug"
            (wrapper_exit (snd (debounce_command 1 true module_init)) "switch.plug"
               (fst (wrapper_enter (snd (debounce_command 1 true module_init))
                       (Q2Qc 1000) (Q2Qc 1000) "switch.plug"
                       (fst (debounce_command 1 true module_init))))))
     = true.
Proof.
  split; [reflexivity|].
  destruct (global_debouncer_interval_wins 1 module_init "switch.plug"
              (Q2Qc 1000) (Q2Qc 1000) eq_refl) as (_ & _ & _ & H).
  rewrite H; by vm_compute.
Defined.

End DebouncerFacts.

(* ===================================================================== *)
(** * The energy sensors *)
(* ===================================================================== *)

Section EnergyFacts.
Import Py Coordinator Datetime Sensor.
Local Open Scope Qc_scope.

Variable py_float : value -> option Qc.
Variable py_round3 : Qc -> Qc.
Variable period_key : datetime -> string.

Implicit Types (s : sensor) (t : datetime) (p : Qc).

Lemma calculate_first p t s :
  last_power s = None \/ last_update_time s = None ->
  calculate_energy_increment t p s = (with_sample p t s, 0).
Proof.
  unfold calculate_energy_increment.
  intros [H|H]; rewrite H; [done|]. by destruct (last_power s).
Qed.

Lemma calculate_next p p0 t t0 s :
  last_power s = Some p0 -> last_update_time s = Some t0 ->
  calculate_energy_increment t p s = (with_sample p t s, trapezoid p0 p t0 t).
Proof. unfold calculate_energy_increment. by intros -> ->. Qed.




Lemma check_and_reset_keeps_sample t s :
  last_power (check_and_reset period_key t s) = last_power s
  /\ last_update_time (check_and_reset period_key t s) = last_update_time s
  /\ device_id (check_and_reset period_key t s) = device_id s.
Proof.
  unfold check_and_reset. destruct (stored s); [|done].
  by case_bool_decide.
Qed.

Lemma check_and_reset_stored t s e :
  stored s = Some e ->
  stored (check_and_reset period_key t s)
  = Some {| energy := if bool_decide (last_reset e = period_key t)
                      then energy e else 0;
            last_reset := period_key t |}.
Proof.
  intros H. unfold check_and_reset. rewrite H.
  case_bool_decide as Hk; cbn; [|done]. rewrite H, <- Hk. by destruct e.
Qed.


(** What integrating a reading does to a sensor that holds a record. *)
Lemma integrate_power_reading t h co s dev p e :
  stored s = Some e ->
  get_current_device_data h co s = Some dev ->
  current_power_of py_float (default [] (device_act_status dev)) = Some p ->
  let x := snd (calculate_energy_increment t p s) in
  integrate_power py_float t h co s =
    if Utils.Qcltb 0 x
    then {| device_id := device_id s;
            stored := Some {| energy := energy e + x; last_reset := last_reset e |};
            last_power := Some p; last_update_time := Some t;
            saves := S (saves s) |}
    else with_sample p t s.
Proof.
  intros He Hd Hp. unfold integrate_power. rewrite Hd, Hp.
  unfold calculate_energy_increment.
  destruct (last_power s) as [p0|], (last_update_time s) as [t0|]; cbn;
    try done.
  destruct (Utils.Qcltb _ _); [|done].
  unfold add_energy. cbn. by rewrite He.
Qed.

Lemma integrate_power_stored t h co s e :
  stored s = Some e ->
  exists inc : Qc,
    0 <= inc
    /\ stored (integrate_power py_float t h co s)
       = Some {| energy := energy e + inc; last_reset := last_reset e |}.
Proof.
  intros He.
  assert (Hsame : exists inc : Qc, 0 <= inc /\ Some e
            = Some {| energy := energy e + inc; last_reset := last_reset e |}).
  { exists 0. split; [done|]. rewrite Qcplus_0_r. by destruct e. }
  unfold integrate_power.
  destruct (get_current_device_data h co s) as [dev|]; [|by rewrite He].
  destruct (current_power_of _ _) as [p|]; [|by rewrite He].
  destruct (calculate_energy_increment t p s) as [s' x] eqn:Hc.
  assert (Hs' : stored s' = Some e).
  { unfold calculate_energy_increment in Hc.
    destruct (last_power s), (last_update_time s); simplify_eq; done. }
  destruct (Utils.Qcltb 0 x) eqn:Hx; [|by rewrite Hs'].
  apply Qcltb_lt in Hx. exists x. split; [by apply Qclt_le_weak|].
  unfold add_energy. by rewrite Hs'.
Qed.

(** C4 as the code has it.  For a sensor that holds a record and reads
    the power [p]: the first sample only stores the sample and its time;
    every later sample computes the trapezoid
    [((last + p) / 2) * elapsedHours / 1000], stores the sample and its
    time, and adds the trapezoid to the accumulated value when it is
    positive, leaving the accumulated value as it is otherwise.  100 W
    followed by 200 W one hour later gives exactly 0.15 kWh. *)
Theorem energy_sample_trapezoid
    (t_sample : datetime) (h : store) (co : coordinator) (s : sensor)
    (dev : device) (p : Qc) (e : energy_data) :
  stored s = Some e ->
  get_current_device_data h co s = Some dev ->
  current_power_of py_float (default [] (device_act_status dev)) = Some p ->
  (last_power s = None \/ last_update_time s = None ->
     integrate_power py_float t_sample h co s = with_sample p t_sample s)
  /\ (forall (p0 : Qc) (t0 : datetime),
        last_power s = Some p0 -> last_update_time s = Some t0 ->
        let x := trapezoid p0 p t0 t_sample in
        let s' := integrate_power py_float t_sample h co s in
        snd (calculate_energy_increment t_sample p s) = x
        /\ last_power s' = Some p
        /\ last_update_time s' = Some t_sample
        /\ (0 < x -> stored s' = Some {| energy := energy e + x;
                                         last_reset := last_reset e |})
        /\ (x <= 0 -> stored s' = Some e))
  /\ (forall t0 t1 : datetime,
        (to_microseconds t1 - to_microseconds t0 = 3600 * 1000000)%Z ->
        trapezoid (Q2Qc 100) (Q2Qc 200) t0 t1 = Q2Qc (15 # 100)).
Proof.
  intros He Hd Hp. split; [|split].
  - intros Hfirst. rewrite (integrate_power_reading _ _ _ _ _ _ _ He Hd Hp).
    cbv zeta. by rewrite (calculate_first _ _ _ Hfirst).
  - intros p0 t0 H0 Ht0. cbv zeta.
    rewrite (integrate_power_reading _ _ _ _ _ _ _ He Hd Hp).
    cbv zeta. rewrite (calculate_next _ _ _ _ _ H0 Ht0). cbn [snd].
    split; [done|].
    destruct (Utils.Qcltb 0 (trapezoid p0 p t0 t_sample)) eqn:Hx.
    + apply Qcltb_lt in Hx. repeat split; try done.
      intros Hle. by apply Qcle_not_lt in Hle.
    + apply Qcltb_ge in Hx. repeat split; try done.
      intros Hlt. by apply Qcle_not_lt in Hx.
  - intros t0 t1 Hdiff. unfold trapezoid, total_seconds_between.
    rewrite Hdiff. apply Qc_is_canon. reflexivity.
Qed.

(** C5.  [native_value] on a sensor that holds a record first runs the
    reset check and then integrates the sample.  When the current period
    key differs from the stored one, the check stores zero and the
    current key; when they are equal it changes nothing.  So the
    accumulated value afterwards is a non-negative increment on top of
    zero after a rollover, and on top of the old value otherwise. *)
Theorem period_rollover_resets
    (t_check t_sample : datetime) (h : store) (co : coordinator)
    (s : sensor) (e : energy_data) :
  stored s = Some e ->
  fst (native_value py_float py_round3 period_key t_check t_sample h co s)
    = integrate_power py_float t_sample h co (check_and_reset period_key t_check s)
  /\ (last_reset e <> period_key t_check ->
        stored (check_and_reset period_key t_check s)
        = Some {| energy := 0; last_reset := period_key t_check |})
  /\ (last_reset e = period_key t_check ->
        check_and_reset period_key t_check s = s)
  /\ exists inc : Qc,
       0 <= inc
       /\ stored (fst (native_value py_float py_round3 period_key
                         t_check t_sample h co s))
          = Some {| energy := (if bool_decide (last_reset e = period_key t_check)
                               then energy e else 0) + inc;
                    last_reset := period_key t_check |}.
Proof.
  intros He.
  assert (Hnv : fst (native_value py_float py_round3 period_key t_check t_sample h co s)
    = integrate_power py_float t_sample h co (check_and_reset period_key t_check s)).
  { unfold native_value. by rewrite He. }
  split; [done|]. split; [|split].
  - intros Hne. rewrite (check_and_reset_stored _ _ _ He).
    by rewrite bool_decide_eq_false_2.
  - intros Heq. unfold check_and_reset. rewrite He.
    by rewrite bool_decide_eq_true_2.
  - rewrite Hnv.
    destruct (integrate_power_stored t_sample h co _ _
                (check_and_reset_stored t_check s e He)) as (inc & Hinc & Hst).
    exists inc. split; [done|]. by rewrite Hst.
Qed.

End EnergyFacts.

Section EnergyExamples.
Import Py Coordinator Datetime Sensor Scenarios.
Local Open Scope Qc_scope.

Lemma energy_sample_trapezoid_witness :
  stored (sampled_at jan1_2200)
    = Some {| energy := Q2Qc 5; last_reset := "2024-01-01" |}
  /\ stored (integrate_power float_of_digits jan1_2300
               (power_socket "200") coord0 (sampled_at jan1_2200))
     = Some {| energy := Q2Qc 5 + Q2Qc (15 # 100); last_reset := "2024-01-01" |}.
Proof.
  split; [reflexivity|].
  destruct (energy_sample_trapezoid float_of_digits jan1_2300
              (power_socket "200") coord0 (sampled_at jan1_2200)
              {| fields := {["id" := PInt 7]};
                 device_act_status := Some [new_entry "power" (PStr "200")] |}
              (Q2Qc 200)
              {| energy := Q2Qc 5; last_reset := "2024-01-01" |}
              eq_refl eq_refl eq_refl) as (_ & Hnext & Hex).
  destruct (Hnext (Q2Qc 100) jan1_2200 eq_refl eq_refl) as (_ & _ & _ & Hadd & _).
  rewrite (Hex jan1_2200 jan1_2300 eq_refl) in Hadd.
  apply Hadd. reflexivity.
Defined.

(** C4 as stated fails when the trapezoid is negative.  The clock is
    set back one hour between two samples of 100 W: the trapezoid is
    -0.1 kWh, and the accumulated value stays 5 kWh instead of becoming
    4.9 kWh. *)
Lemma negative_increment_not_added :
  trapezoid (Q2Qc 100) (Q2Qc 100) jan1_2300 jan1_2200 = Q2Qc (-1 # 10)
  /\ energy <$> stored (fst (Sensor.native_value float_of_digits id date_isoformat
                              jan1_2200 jan1_2200
                              (power_socket "100") coord0 (sampled_at jan1_2300)))
     = Some (Q2Qc 5)
  /\ Q2Qc 5 <> Q2Qc 5 + trapezoid (Q2Qc 100) (Q2Qc 100) jan1_2300 jan1_2200.
Proof.
  split; [apply Qc_is_canon; reflexivity|].
  split; [by vm_compute|].
  intros H. apply (f_equal this) in H. vm_compute in H. discriminate.
Qed.

Lemma period_rollover_resets_witness :
  stored (sampled_at jan1_2330)
    = Some {| energy := Q2Qc 5; last_reset := "2024-01-01" |}
  /\ stored (check_and_reset date_isoformat jan2_0030 (sampled_at jan1_2330))
     = Some {| energy := 0; last_reset := "2024-01-02" |}.
Proof.
  split; [reflexivity|].
  destruct (period_rollover_resets float_of_digits id date_isoformat
              jan2_0030 jan2_0030 (power_socket "200") coord0
              (sampled_at jan1_2330)
              {| energy := Q2Qc 5; last_reset := "2024-01-01" |} eq_refl)
    as (_ & Hreset & _).
  apply Hreset. discriminate.
Defined.


End EnergyExamples.

(* ===================================================================== *)
(** * Request signing *)
(* ===================================================================== *)

Section SigningFacts.
Import Py RequestConfig.
Local Open Scope string_scope.


















(** The RFC 1321 test suite, and a signature computed by [hashlib]. *)
Lemma md5_test_suite :
  MD5.hexdigest "" = "d41d8cd98f00b204e9800998ecf8427e"
  /\ MD5.hexdigest "a" = "0cc175b9c0f1b6a831c399e269772661"
  /\ MD5.hexdigest "abc" = "900150983cd24fb0d6963f7d28e17f72"
  /\ MD5.hexdigest "message digest" = "f96b697d7cb7938d525a2f31aaf161d0"
  /\ MD5.hexdigest "abcdefghijklmnopqrstuvwxyz" = "c3fcd3d76192e4007dfb496cca67e13b"
  /\ MD5.hexdigest
       "12345678901234567890123456789012345678901234567890123456789012345678901234567890"
     = "57edf4a22be3c955ac49da2e2107b67a".
Proof. by vm_compute. Qed.

Lemma generate_sign_known_answer :
  generate_sign (get_opt (fun i => i * 7)%nat (Q2Qc (17000000005 # 10)))
  = "b2e4fb59bb5c4b5296be56f59bdba24a".
Proof. by vm_compute. Qed.
End SigningFacts.

(* ===================================================================== *)
(** * The optimistic window of the switch *)
(* ===================================================================== *)

Section SwitchFacts.
Import Py Coordinator Switch.
Local Open Scope Qc_scope.
Implicit Types (h : store) (co : coordinator) (e : entity) (f : frame).

(** Inside the window [is_on] reads the entity's own record. *)
Lemma is_on_within_window now t0 h co e :
  last_command_time e = Some t0 -> now - t0 < Q2Qc 30 ->
  is_on now h co e = get_default "l1_state" (PBool false) (local_device h e).
Proof.
  intros Ht Hlt. unfold is_on. rewrite Ht.
  by rewrite (proj2 (Qcltb_lt _ _) Hlt).
Qed.

(** Outside the window it reads the coordinator's data. *)
Lemma is_on_after_window now t0 h co e :
  last_command_time e = Some t0 -> Q2Qc 30 <= now - t0 ->
  is_on now h co e
  = canonical_l1_state h (get "id" (local_device h e)) (default [] (data co)).
Proof.
  intros Ht Hle. unfold is_on. rewrite Ht.
  by rewrite (proj2 (Qcltb_ge _ _) Hle).
Qed.

Lemma find_device_in h id ls l :
  find_device h id ls = Some l -> In l ls.
Proof.
  induction ls as [|x ls IH]; cbn; [done|].
  destruct (h !! x) as [d|]; [destruct (matches id d)|]; intros H;
    simplify_eq; auto.
Qed.

(** A push frame writes only to records of [self.devices]. *)
Lemma handle_websocket_message_frame f h co l :
  ~ In l (devices co) ->
  fst (handle_websocket_message f h co) !! l = h !! l.
Proof.
  intros Hl. unfold handle_websocket_message, update_device_from_websocket.
  repeat case_match; try done; simplify_eq; cbn.
  all: rewrite lookup_insert_ne; [done|].
  all: intros <-; eauto using find_device_in.
Qed.

Lemma write_l1_state_lookup h id b ls l d :
  h !! l = Some d -> get "l1_state" (fields d) = PBool b ->
  exists d', write_l1_state h id b ls !! l = Some d'
             /\ get "l1_state" (fields d') = PBool b
             /\ get "id" (fields d') = get "id" (fields d).
Proof.
  intros Hl Hb. induction ls as [|x ls IH]; cbn; [eauto|].
  destruct (h !! x) as [dx|] eqn:Hx; [|done].
  destruct (py_eq (get "id" (fields dx)) id); [|done].
  destruct (decide (x = l)) as [->|Hne].
  - simplify_eq. rewrite lookup_insert_eq. eexists. split; [done|].
    unfold get. cbn. rewrite lookup_insert_eq, lookup_insert_ne by done. done.
  - rewrite lookup_insert_ne by done. eauto.
Qed.

(** A successful command leaves the new state in the entity's record
    and starts the window. *)
Lemma send_command_success command token resp now h co e h' e' :
  send_command command token resp now h co e = (h', e', true) ->
  is_Some (h !! device_ref e) ->
  device_ref e' = device_ref e
  /\ last_command_time e' = Some now
  /\ get_default "l1_state" (PBool false) (local_device h' e')
     = PBool (bool_decide (command = "on"%string)).
Proof.
  unfold send_command. intros H [d Hd].
  repeat case_match; simplify_eq. cbn [device_ref last_command_time].
  split; [done|]. split; [done|].
  unfold local_device. cbn [device_ref].
  edestruct (write_l1_state_lookup
               (<[device_ref e := set_field "l1_state"
                    (PBool (bool_decide (command = "on"%string))) d]> h))
    as (d' & Hd' & Hv & _).
  { apply lookup_insert_eq. }
  { unfold get. cbn. by rewrite lookup_insert_eq. }
  rewrite Hd'. cbn. unfold get_default, get in *.
  destruct (fields d' !! "l1_state"); cbn in *; congruence.
Qed.

(** When the entity's record is not one of the coordinator's, a push
    frame cannot reach it: inside the window the read shows the state
    the command set, whatever the frame says. *)
Lemma optimistic_copy_survives_when_unshared
    command token resp t0 now h co e h' e' f :
  send_command command token resp t0 h co e = (h', e', true) ->
  is_Some (h !! device_ref e) ->
  ~ In (device_ref e) (devices co) ->
  now - t0 < Q2Qc 30 ->
  is_on now (fst (handle_websocket_message f h' co))
        (snd (handle_websocket_message f h' co)) e'
  = PBool (bool_decide (command = "on"%string)).
Proof.
  intros Hs Hd Hun Hlt.
  destruct (send_command_success _ _ _ _ _ _ _ _ _ Hs Hd) as (Hr & Ht & Hv).
  rewrite (is_on_within_window now t0) by done.
  unfold local_device in *.
  rewrite handle_websocket_message_frame by (by rewrite Hr). done.
Qed.


(** After a REST refresh the coordinator holds new records, and the same
    frame leaves the entity's reads alone until the window closes. *)
Lemma optimistic_copy_after_refresh :
  let h := fst Scenarios.refreshed in
  let co := snd Scenarios.refreshed in
  let sent := send_command "on" (PStr "token") Scenarios.accepted (Q2Qc 1000)
                h co Scenarios.entity0 in
  let pushed := handle_websocket_message Scenarios.push_off (fst (fst sent)) co in
  is_on (Q2Qc 1010) (fst pushed) (snd pushed) (snd (fst sent)) = PBool true
  /\ is_on (Q2Qc 1030) (fst pushed) (snd pushed) (snd (fst sent)) = PBool false.
Proof. by vm_compute. Qed.
End SwitchFacts.

Section MonthExample.
Import Py Datetime Sensor.

(** The month sensor names the period by year and month: a record kept
    for January is reset by a read on the first of February. *)
Lemma month_rollover_example :
  stored (MindorMonthEnergySensor.check_and_reset_monthly
            (DT 2024 2 1 0 0 5 0)
            {| device_id := PInt 7;
               stored := Some {| energy := Q2Qc 42; last_reset := "2024-01" |};
               last_power := Some (Q2Qc 100);
               last_update_time := Some (DT 2024 1 31 23 59 55 0);
               saves := 0 |})
  = Some {| energy := Q2Qc 0; last_reset := "2024-02" |}.
Proof. reflexivity. Qed.

End MonthExample.

(* ===================================================================== *)
(** * The client's lifecycle and its device cache *)
(* ===================================================================== *)

Section ClientLifecycleFacts.
Import WebSocketClient.


Lemma on_websocket_error_range (c : client) :
  count_in_range c -> count_in_range (on_websocket_error c).
Proof.
  intros [Hm Hr]. unfold on_websocket_error, count_in_range.
  destruct (Z.ltb_spec (max_connect_attempts c) (connect_count c)); cbn; lia.
Qed.

Lemma init_websocket_range (ok : bool) (c : client) :
  count_in_range c -> count_in_range (fst (init_websocket ok c)).
Proof.
  intros H. unfold init_websocket. destruct ok; cbn [fst].
  - destruct H as [Hm _]. unfold count_in_range. cbn. lia.
  - apply on_websocket_error_range. exact H.
Qed.

Lemma step_range (c : client) (e : event) :
  count_in_range c -> count_in_range (step c e).
Proof.
  intros H. destruct e as [ok|ok| | |ok]; cbn [step].
  - by apply init_websocket_range.
  - unfold delayed_reconnect. destruct (connect_timer c) as [[]|]; try done.
    unfold finish_running, connect_websocket.
    set (c' := fst (init_websocket ok _)).
    assert (Hc' : count_in_range c') by (apply init_websocket_range; exact H).
    destruct (connect_timer c') as [[]|]; done.
  - unfold delayed_reconnect_reset. destruct (reconnect_timer c) as [[]|]; done.
  - destruct (listening c); [|done].
    apply (on_websocket_error_range c) in H. exact H.
  - destruct (listening c); [|done].
    unfold on_websocket_close. cbn.
    destruct (is_reconnect c); [exact H|]. destruct (is_close c); [|exact H].
    unfold connect_websocket.
    match goal with |- count_in_range (set_is_connected _ (fst (init_websocket _ ?x))) =>
      assert (Hx : count_in_range (fst (init_websocket ok x)))
        by (apply init_websocket_range; exact H) end.
    exact Hx.
Qed.

(** X1.  Whatever happens to a client (connection attempts that succeed
    or fail, timers firing, stream errors, close frames, calls of
    [disconnect]), its failure counter stays between 0 and 31, one above
    the cap. *)
Theorem connect_count_bounded (acts : list action) :
  0 <= connect_count (perform_all init acts) <= 31.
Proof.
  assert (H : count_in_range (perform_all init acts)).
  { assert (Hi : count_in_range init) by (unfold count_in_range; cbn; lia).
    unfold perform_all. revert Hi. generalize init.
    induction acts as [|a acts IH]; intros c Hc; [exact Hc|].
    cbn [fold_left]. apply IH. destruct a as [e|]; cbn [perform].
    - by apply step_range.
    - exact Hc. }
  apply H.
Qed.

(** After [disconnect] nothing is pending and nothing listens. *)
Lemma step_after_disconnect (c : client) (e : event) :
  spontaneous e = true -> step (disconnect c) e = disconnect c.
Proof.
  destruct e as [ok|ok| | |ok]; cbn; try done.
  - intros _. unfold delayed_reconnect. cbn.
    destruct (connect_timer c) as [[]|]; done.
  - intros _. unfold delayed_reconnect_reset. cbn.
    destruct (reconnect_timer c) as [[]|]; done.
Qed.

(** X2.  After [disconnect] the client is at rest: as long as nobody
    calls [init_websocket] again, no timer firing and no stream event
    changes its state, no reconnect is scheduled and no connection
    attempt is made.  Calling [disconnect] twice is the same as calling
    it once. *)
Theorem disconnect_is_final (c : client) (es : list event) :
  forallb spontaneous es = true ->
  run (disconnect c) es = disconnect c
  /\ reconnect_scheduled (run (disconnect c) es) = false
  /\ ws_connect_calls (run (disconnect c) es) = ws_connect_calls c
  /\ disconnect (disconnect c) = disconnect c.
Proof.
  intros Hes.
  assert (Hrun : run (disconnect c) es = disconnect c).
  2:{ rewrite Hrun. repeat split; try done.
      - unfold reconnect_scheduled. cbn. by destruct (connect_timer c) as [[]|].
      - unfold disconnect. cbn.
        by destruct (connect_timer c) as [[]|], (reconnect_timer c) as [[]|]. }
  revert Hes.
  induction es as [|e es IH]; [done|].
  cbn. intros [He Hes]%andb_true_iff. unfold run in *. cbn [fold_left].
  rewrite step_after_disconnect by done. by apply IH.
Qed.

Lemma disconnect_is_final_witness :
  run (disconnect (run init [EvInit true]))
      [EvReconnectTimer true; EvResetTimer; EvStreamClose true; EvStreamError]
  = disconnect (run init [EvInit true]).
Proof.
  apply (disconnect_is_final (run init [EvInit true])
           [EvReconnectTimer true; EvResetTimer; EvStreamClose true; EvStreamError]).
  reflexivity.
Defined.

End ClientLifecycleFacts.

Section ClientCacheFacts.
Import Py Coordinator ClientCache.
Implicit Types (h : store) (c : cache) (msg : ws_message).

Lemma py_eq_refl (x : value) : py_eq x x = true.
Proof.
  destruct x as [|b|n|s]; cbn; try done.
  - by apply bool_decide_eq_true_2.
  - apply Z.eqb_refl.
  - by apply bool_decide_eq_true_2.
Qed.

Lemma dict_set_empty_all {A} (k : value) (d : pydict (list A)) :
  Forall (fun kv => snd kv = []) d ->
  Forall (fun kv => snd kv = []) (dict_set k [] d).
Proof.
  induction d as [|[k' v'] d IH]; cbn; intros H.
  - by repeat constructor.
  - inversion H; subst. destruct (py_eq k' k); constructor; auto.
Qed.

Lemma dict_set_twice_empty {A} (k : value) (l : list A) (d : pydict (list A)) :
  Forall (fun kv => snd kv = []) d ->
  Forall (fun kv => snd kv = []) (dict_set k [] (dict_set k l d)).
Proof.
  induction d as [|[k' v'] d IH]; cbn; intros H.
  - rewrite py_eq_refl. by repeat constructor.
  - inversion H; subst. destruct (py_eq k' k) eqn:E; cbn; rewrite E;
      constructor; auto.
Qed.

Lemma dict_get_set_eq {A} (k : value) (v : A) (d : pydict A) :
  dict_get k (dict_set k v d) = Some v.
Proof.
  induction d as [|[k' v'] d IH]; cbn.
  - by rewrite py_eq_refl.
  - destruct (py_eq k' k) eqn:E; cbn; by rewrite E.
Qed.

Lemma dict_get_empty {A} (k : value) (d : pydict (list A)) (l : list A) :
  Forall (fun kv => snd kv = []) d -> dict_get k d = Some l -> l = [].
Proof.
  induction d as [|[k' v'] d IH]; cbn; [done|].
  intros H. inversion H; subst. destruct (py_eq k' k); [|auto].
  intros ?; simplify_eq. done.
Qed.

Lemma init_key_empty (k : value) (d : pydict (list ws_message)) :
  Forall (fun kv => snd kv = []) d ->
  Forall (fun kv => snd kv = []) (init_key k d).
Proof.
  intros H. unfold init_key. destruct (dict_get k d); [done|].
  by apply dict_set_empty_all.
Qed.

Lemma init_key_get (k : value) (d : pydict (list ws_message)) :
  Forall (fun kv => snd kv = []) d -> dict_get k (init_key k d) = Some [].
Proof.
  intros H. unfold init_key. destruct (dict_get k d) as [l|] eqn:E.
  - rewrite E. f_equal. eauto using dict_get_empty.
  - apply dict_get_set_eq.
Qed.

Lemma clear_key_empty (k : value) c :
  buffers_empty c -> buffers_empty (clear_key k c).
Proof.
  unfold buffers_empty, clear_key. cbn. intros H.
  destruct (dict_get k (handle_info c)); [|done]. by apply dict_set_empty_all.
Qed.

Lemma process_device_actions_cache device_id acts idx h c :
  buffers_empty c ->
  buffers_empty (snd (process_device_actions device_id acts idx h c))
  /\ equipment_list (snd (process_device_actions device_id acts idx h c))
     = equipment_list c.
Proof.
  revert h c. induction acts as [|item acts IH]; intros h c Hc; [done|].
  cbn. destruct (py_eq (get "act" item) (PStr "source")); [|by apply IH].
  destruct (IH (set_at idx "isOn"
                  (PBool (negb (py_eq (get_default "val" (PStr "off") item) (PStr "off"))))
                  (set_at idx "isOperation" (PBool false) h c) c)
               (clear_key device_id c) (clear_key_empty _ _ Hc)) as [H1 H2].
  split; [exact H1|]. by rewrite H2.
Qed.

Lemma set_at_lookup idx k v h c l d :
  equipment_list c !! idx = Some l -> h !! l = Some d ->
  set_at idx k v h c !! l = Some (set_field k v d).
Proof.
  intros Hl Hd. unfold set_at. rewrite Hl, Hd. apply lookup_insert_eq.
Qed.

Lemma set_at_is_Some idx k v h c l :
  is_Some (h !! l) -> is_Some (set_at idx k v h c !! l).
Proof.
  intros Hl. unfold set_at. repeat case_match; try done.
  destruct (decide (l0 = l)) as [->|]; [rewrite lookup_insert_eq; eauto|].
  by rewrite lookup_insert_ne.
Qed.

Lemma process_device_actions_is_Some device_id acts idx h c l :
  is_Some (h !! l) ->
  is_Some (fst (process_device_actions device_id acts idx h c) !! l).
Proof.
  revert h c. induction acts as [|item acts IH]; intros h c Hl; [done|].
  cbn. destruct (py_eq (get "act" item) (PStr "source")); [|by apply IH].
  apply IH. by do 2 apply set_at_is_Some.
Qed.

Lemma find_idx_found h device_id ls idx :
  find_idx h device_id ls = Some idx ->
  exists l d, ls !! idx = Some l /\ h !! l = Some d
              /\ py_eq (get "device_id" (fields d)) device_id = true.
Proof.
  revert idx. induction ls as [|x ls IH]; intros idx; cbn; [done|].
  destruct (h !! x) as [d|] eqn:Hx.
  - destruct (py_eq _ _) eqn:E.
    + intros ?; simplify_eq. eauto.
    + destruct (find_idx h device_id ls) as [i|]; cbn; [|done].
      intros ?; simplify_eq. cbn. eauto.
  - destruct (find_idx h device_id ls) as [i|]; cbn; [|done].
    intros ?; simplify_eq. cbn. eauto.
Qed.

(** X3.  The client's buffered handling of a status message.  When no
    buffer of [handle_info] holds a message, a status message for a
    device of the equipment list sets that record's [online] to whether
    the message itself says ["online"], clears [isOperation], and leaves
    every buffer empty again: no earlier message takes part in the
    value. *)
Theorem status_frame_settles msg h c idx l :
  buffers_empty c ->
  truthy (get "device_id" (msg_fields msg)) = true ->
  find_idx h (get "device_id" (msg_fields msg)) (equipment_list c) = Some idx ->
  equipment_list c !! idx = Some l ->
  py_eq (get "type" (msg_fields msg)) (PStr "status") = true ->
  buffers_empty (snd (process_device_message msg h c))
  /\ exists d',
       fst (process_device_message msg h c) !! l = Some d'
       /\ get "online" (fields d')
          = PBool (py_eq (get "data" (msg_fields msg)) (PStr "online"))
       /\ get "isOperation" (fields d') = PBool false.
Proof.
  intros Hc Hid Hfind Hl Hst. unfold process_device_message.
  rewrite Hid, Hfind, Hst. cbn [negb].
  destruct (find_idx_found _ _ _ _ Hfind) as (l' & d & Hl' & Hd & _).
  assert (l' = l) by congruence. subst l'.
  set (r := match act_arr msg with
            | Some (a :: rest) =>
                process_device_actions (get "device_id" (msg_fields msg))
                  (a :: rest) idx h c
            | _ => (h, c) end).
  assert (Hr : buffers_empty (snd r) /\ equipment_list (snd r) = equipment_list c
               /\ is_Some (fst r !! l)).
  { unfold r. destruct (act_arr msg) as [[|a rest]|]; try (by eauto).
    destruct (process_device_actions_cache (get "device_id" (msg_fields msg))
                (a :: rest) idx h c Hc) as [H1 H2].
    split; [done|]. split; [done|].
    apply process_device_actions_is_Some. eauto. }
  destruct r as [h1 c1]. cbn [fst snd] in Hr. destruct Hr as (Hc1 & He1 & [d1 Hd1]).
  unfold process_device_status, handle_status_callback. cbn [fst snd].
  rewrite init_key_get by exact Hc1. cbn [default app].
  split.
  - unfold buffers_empty, clear_key. cbn. rewrite dict_get_set_eq.
    apply dict_set_twice_empty. by apply init_key_empty.
  - erewrite set_at_lookup; [| cbn; by rewrite He1 |].
    2:{ erewrite set_at_lookup; [done | cbn; by rewrite He1 | exact Hd1]. }
    eexists. split; [done|]. unfold get. cbn.
    rewrite lookup_insert_eq. rewrite lookup_insert_ne, lookup_insert_eq by done.
    cbn. by rewrite orb_false_r.
Qed.

(** Every message keeps the buffers empty, so the premise of the
    theorem above holds from one message to the next. *)
Lemma buffers_stay_empty msg h c :
  buffers_empty c -> buffers_empty (snd (process_device_message msg h c)).
Proof.
  intros Hc. unfold process_device_message.
  destruct (truthy _); cbn [negb]; [|done].
  destruct (find_idx _ _ _) as [idx|]; [|done].
  set (r := match act_arr msg with
            | Some (a :: rest) =>
                process_device_actions (get "device_id" (msg_fields msg))
                  (a :: rest) idx h c
            | _ => (h, c) end).
  assert (Hr : buffers_empty (snd r)).
  { unfold r. destruct (act_arr msg) as [[|a rest]|]; try done.
    by apply process_device_actions_cache. }
  destruct r as [h1 c1]. cbn [snd] in Hr.
  destruct (py_eq _ _); [|done].
  unfold process_device_status, handle_status_callback. cbn [snd].
  unfold buffers_empty, clear_key. cbn. rewrite dict_get_set_eq.
  apply dict_set_twice_empty. by apply init_key_empty.
Qed.

Lemma cache0_buffers_empty : buffers_empty Scenarios.cache0.
Proof. unfold buffers_empty. vm_compute. by repeat constructor. Qed.

Lemma status_frame_settles_witness :
  buffers_empty Scenarios.cache0
  /\ exists d',
       fst (process_device_message Scenarios.offline_msg
              Scenarios.store0 Scenarios.cache0) !! 1%nat = Some d'
       /\ get "online" (fields d') = PBool false.
Proof.
  split; [exact cache0_buffers_empty|].
  destruct (status_frame_settles Scenarios.offline_msg Scenarios.store0
              Scenarios.cache0 0%nat 1%nat cache0_buffers_empty)
    as (_ & d' & Hd' & Ho & _); try reflexivity.
  exists d'. split; [exact Hd'|]. exact Ho.
Defined.

End ClientCacheFacts.

(* ===================================================================== *)
(** * More on the push-frame reducer and the device store *)
(* ===================================================================== *)

Section ReducerMoreFacts.
Import Py Coordinator.
Implicit Types (d : device) (act : act_entry) (acts : list act_entry)
  (h : store) (co : coordinator) (f : frame) (msg : ws_message).









End ReducerMoreFacts.

Section StoreFacts.
Import Py Coordinator.
Implicit Types (d : device) (act : act_entry) (acts : list act_entry)
  (h : store) (co : coordinator) (f : frame) (msg : ws_message).

Lemma find_device_found h id ls l :
  find_device h id ls = Some l ->
  In l ls /\ exists d, h !! l = Some d /\ matches id d = true.
Proof.
  induction ls as [|x ls IH]; cbn; [done|].
  destruct (h !! x) as [d|] eqn:Hx.
  - destruct (matches id d) eqn:Hm.
    + intros ?; simplify_eq. eauto.
    + intros H. destruct (IH H) as [? ?]. eauto.
  - intros H. destruct (IH H) as [? ?]. eauto.
Qed.

(** What a frame can do to the store: nothing, or replace the record
    of one device of [self.devices]. *)
Lemma handle_websocket_message_cases f h co :
  handle_websocket_message f h co = (h, co)
  \/ exists (l : loc) (d d' : device) (ok : bool),
       In l (devices co) /\ h !! l = Some d
       /\ handle_websocket_message f h co
          = (<[l := d']> h,
             if ok then {| devices := devices co; data := data co;
                           notified := S (notified co) |} else co).
Proof.
  unfold handle_websocket_message, update_device_from_websocket.
  destruct (py_eq (frame_type f) (PStr "welcome")); [by left|].
  destruct (py_eq (frame_type f) (PStr "ping")); [by left|].
  destruct (frame_message f) as [msg|]; [|by left].
  destruct (truthy _); [|by left]. cbn [negb].
  destruct (find_device _ _ _) as [l|] eqn:Hf; [|by left].
  destruct (find_device_found _ _ _ _ Hf) as (Hin & d & Hd & _).
  rewrite Hd. destruct (update_matching msg d) as [d' ok].
  right. by exists l, d, d', ok.
Qed.

(** X6.  A frame never adds or removes a record and never changes the
    coordinator's lists: the store keeps its addresses, at most one
    record is replaced, and a record that is not in [self.devices] is
    never touched. *)
Theorem push_frame_is_local f h co :
  devices (snd (handle_websocket_message f h co)) = devices co
  /\ data (snd (handle_websocket_message f h co)) = data co
  /\ dom (fst (handle_websocket_message f h co)) = dom h
  /\ (exists l : loc, forall l' : loc, l' <> l ->
        fst (handle_websocket_message f h co) !! l' = h !! l')
  /\ (forall l : loc, ~ In l (devices co) ->
        fst (handle_websocket_message f h co) !! l = h !! l).
Proof.
  destruct (handle_websocket_message_cases f h co)
    as [->|(l & d & d' & ok & Hin & Hd & ->)]; cbn [fst snd].
  - repeat split; try done. by exists 0%nat.
  - split; [by destruct ok|]. split; [by destruct ok|]. split; [|split].
    + apply dom_insert_lookup_L. eauto.
    + exists l. intros l' Hne. by rewrite lookup_insert_ne.
    + intros l' Hl'. rewrite lookup_insert_ne; [done|]. by intros ->.
Qed.

Lemma update_act_status_length (l : list act_entry) (a : string) (v : value) :
  length (update_act_status l a v)
  = (if existsb (has_act a) l then length l else S (length l)).
Proof.
  induction l as [|item l IH]; cbn; [done|].
  destruct (has_act a item); cbn; [done|]. rewrite IH.
  by destruct (existsb (has_act a) l).
Qed.

(** X7.  An upsert written twice is the upsert written once; it keeps
    every entry in its place, adds at most one, and changes no key of an
    entry other than ["val"]. *)
Theorem update_act_status_idempotent (l : list act_entry) (a : string) (v : value) :
  update_act_status (update_act_status l a v) a v = update_act_status l a v
  /\ (length l <= length (update_act_status l a v) <= S (length l))%nat
  /\ (forall (k : nat) (item : act_entry),
        l !! k = Some item ->
        exists item', update_act_status l a v !! k = Some item'
                      /\ forall key : string, key <> "val"%string ->
                           item' !! key = item !! key).
Proof.
  split; [|split].
  - induction l as [|item l IH]; cbn.
    + rewrite has_act_new, bool_decide_eq_true_2 by done.
      unfold new_entry. by rewrite insert_insert_eq.
    + destruct (has_act a item) eqn:Ha; cbn.
      * rewrite has_act_set_val, Ha. by rewrite insert_insert_eq.
      * rewrite Ha. by rewrite IH.
  - rewrite update_act_status_length. destruct (existsb _ _); lia.
  - induction l as [|x l IH]; intros k item Hk; [done|].
    cbn. destruct (has_act a x) eqn:Ha.
    + destruct k as [|k]; cbn in *.
      * simplify_eq. eexists. split; [done|]. intros key Hkey.
        by rewrite lookup_insert_ne.
      * eauto.
    + destruct k as [|k]; cbn in *; [simplify_eq; eauto|]. by apply IH.
Qed.

(** Fresh addresses are outside the store. *)
Lemma fresh_not_in h : h !! fresh h = None.
Proof.
  apply not_elem_of_dom. intros Hin.
  apply elem_of_elements in Hin. apply max_list_elem_of_le in Hin.
  unfold fresh in Hin. exact (Nat.nle_succ_diag_l _ Hin).
Qed.

Lemma alloc_spec (ds : list device) h :
  (forall l : loc, is_Some (h !! l) -> fst (alloc h ds) !! l = h !! l)
  /\ Forall (fun l => h !! l = None) (snd (alloc h ds))
  /\ length (snd (alloc h ds)) = length ds
  /\ (forall i : nat,
        (snd (alloc h ds) !! i) ≫= (fun l => fst (alloc h ds) !! l) = ds !! i).
Proof.
  revert h. induction ds as [|d ds IH]; intros h; cbn.
  - repeat split; done.
  - destruct (alloc (<[fresh h := d]> h) ds) as [h' ls] eqn:Ha.
    specialize (IH (<[fresh h := d]> h)). rewrite Ha in IH. cbn in *.
    destruct IH as (IH1 & IH2 & IH3 & IH4).
    pose proof (fresh_not_in h) as Hfresh.
    split; [|split; [|split]].
    + intros l Hl. rewrite IH1.
      * rewrite lookup_insert_ne; [done|]. intros <-. rewrite Hfresh in Hl.
        by destruct Hl.
      * destruct (decide (fresh h = l)) as [<-|]; [rewrite lookup_insert_eq; eauto|].
        by rewrite lookup_insert_ne.
    + constructor; [done|]. eapply Forall_impl; [exact IH2|].
      intros l Hl. cbn in Hl.
      destruct (decide (fresh h = l)) as [<-|]; [done|].
      by rewrite lookup_insert_ne in Hl.
    + by rewrite IH3.
    + intros [|i]; cbn.
      * rewrite IH1 by (rewrite lookup_insert_eq; eauto). apply lookup_insert_eq.
      * apply IH4.
Qed.

(** X8.  A successful REST refresh stores the returned records at new
    addresses, in order, as both [self.devices] and [self.data]; a
    record that existed before is not changed by the refresh, is not in
    the new list, and is out of reach of every later push frame. *)
Theorem refresh_replaces_records (records : list device) h co f (l : loc) :
  is_Some (h !! l) ->
  let refreshed := async_update_data records h co in
  fst refreshed !! l = h !! l
  /\ ~ In l (devices (snd refreshed))
  /\ data (snd refreshed) = Some (devices (snd refreshed))
  /\ (forall i : nat,
        (devices (snd refreshed) !! i) ≫= (fun l' => fst refreshed !! l')
        = records !! i)
  /\ fst (handle_websocket_message f (fst refreshed) (snd refreshed)) !! l
     = h !! l.
Proof.
  intros Hl. unfold async_update_data.
  destruct (alloc_spec records h) as (H1 & H2 & H3 & H4).
  destruct (alloc h records) as [h' ls]. cbn in *.
  assert (Hnot : ~ In l ls).
  { intros Hin. rewrite Forall_forall in H2.
    apply list_elem_of_In in Hin. apply H2 in Hin. rewrite Hin in Hl.
    by destruct Hl. }
  repeat split; try done; auto.
  rewrite handle_websocket_message_frame by done. auto.
Qed.

Lemma refresh_replaces_records_witness :
  is_Some (Scenarios.store0 !! 1%nat)
  /\ fst (handle_websocket_message Scenarios.push_off
            (fst (async_update_data [Scenarios.socket0]
                    Scenarios.store0 Scenarios.coord0))
            (snd (async_update_data [Scenarios.socket0]
                    Scenarios.store0 Scenarios.coord0))) !! 1%nat
     = Some Scenarios.socket0.
Proof.
  assert (H : is_Some (Scenarios.store0 !! 1%nat)) by (by eexists).
  split; [exact H|].
  destruct (refresh_replaces_records [Scenarios.socket0] Scenarios.store0
              Scenarios.coord0 Scenarios.push_off 1%nat H)
    as (_ & _ & _ & _ & Hpush).
  refine (eq_trans Hpush _). reflexivity.
Defined.

End StoreFacts.

Section EnergyLifeFacts.
Import Py Coordinator Datetime Sensor.
Local Open Scope Qc_scope.

Variable py_float : value -> option Qc.
Variable py_round3 : Qc -> Qc.
Variable period_key : datetime -> string.

Implicit Types (s : sensor) (t : datetime) (p : Qc) (h : store) (co : coordinator).

Lemma Qcltb_irrefl (x : Qc) : Utils.Qcltb x x = false.
Proof. apply Qcltb_ge. apply Qcle_refl. Qed.

(** The first sample of a sensor stores the sample and adds nothing. *)
Lemma integrate_power_first t h co s :
  last_power s = None ->
  stored (integrate_power py_float t h co s) = stored s.
Proof.
  intros Hp. unfold integrate_power.
  destruct (get_current_device_data h co s); [|done].
  destruct (current_power_of _ _); [|done].
  unfold calculate_energy_increment. rewrite Hp. by rewrite Qcltb_irrefl.
Qed.

(** X9.  Whatever the two stores give back when a sensor is loaded (a
    record of its own, a legacy record, nothing, or an exception), the
    sensor ends up with a record: its own one unchanged when there is
    one, else the legacy entries with zero and the current period for
    the missing ones.  The first read after that integrates nothing: it
    shows the loaded energy when the record is of the current period
    and zero when it is of an earlier one. *)
Theorem first_read_after_load
    (energy_of : legacy_record -> option Qc)
    (reset_of : legacy_record -> option string)
    (now tc ts : datetime) (own : loaded energy_data)
    (legacy : loaded legacy_record) h co s :
  last_power s = None ->
  exists e : energy_data,
    stored (load_energy_data period_key energy_of reset_of now own legacy s) = Some e
    /\ (forall d, own = LoadReturns (Some d) -> e = d)
    /\ (forall lg, own = LoadReturns None -> legacy = LoadReturns (Some lg) ->
          e = {| energy := default 0 (energy_of lg);
                 last_reset := default (period_key now) (reset_of lg) |})
    /\ snd (native_value py_float py_round3 period_key tc ts h co
              (load_energy_data period_key energy_of reset_of now own legacy s))
       = Some (py_round3 (if bool_decide (last_reset e = period_key tc)
                          then energy e else 0)).
Proof.
  intros Hp.
  assert (Hload : exists e,
            load_energy_data period_key energy_of reset_of now own legacy s
            = set_stored e s
            /\ (forall d, own = LoadReturns (Some d) -> e = d)
            /\ (forall lg, own = LoadReturns None -> legacy = LoadReturns (Some lg) ->
                  e = {| energy := default 0 (energy_of lg);
                         last_reset := default (period_key now) (reset_of lg) |})).
  { unfold load_energy_data.
    destruct own as [|[d|]]; [| |destruct legacy as [|[lg|]]];
      eexists; (split; [done|]); split; intros; simplify_eq; done. }
  destruct Hload as (e & -> & H1 & H2). exists e.
  split; [done|]. split; [done|]. split; [done|].
  unfold native_value. cbn [stored set_stored snd].
  rewrite integrate_power_first.
  - by rewrite (check_and_reset_stored period_key tc (set_stored e s) e).
  - by rewrite (proj1 (check_and_reset_keeps_sample period_key tc _)).
Qed.

Lemma native_value_stored tc ts h co s e :
  stored s = Some e ->
  exists inc : Qc,
    0 <= inc
    /\ stored (fst (native_value py_float py_round3 period_key tc ts h co s))
       = Some {| energy := (if bool_decide (last_reset e = period_key tc)
                            then energy e else 0) + inc;
                 last_reset := period_key tc |}.
Proof.
  intros He. unfold native_value. rewrite He. cbn [fst].
  destruct (integrate_power_stored py_float ts h co _ _
              (check_and_reset_stored period_key tc s e He)) as (inc & Hinc & Hst).
  exists inc. split; [done|]. by rewrite Hst.
Qed.

Lemma Qcle_plus_nonneg (x inc : Qc) : 0 <= inc -> x <= x + inc.
Proof.
  intros H. rewrite <- (Qcplus_0_r x) at 1. by apply Qcplus_le_mono_l.
Qed.

(** X10.  Over any sequence of reads, with any clocks and device data,
    a loaded sensor keeps a record, a non-negative energy stays
    non-negative, and while the reads fall in the record's period the
    energy never decreases. *)
Theorem energy_never_decreases (rs : list reading) s e :
  stored s = Some e ->
  exists e' : energy_data,
    stored (read_all py_float py_round3 period_key rs s) = Some e'
    /\ (0 <= energy e -> 0 <= energy e')
    /\ (Forall (fun r => period_key (t_check r) = last_reset e) rs ->
        last_reset e' = last_reset e /\ energy e <= energy e').
Proof.
  revert s e. induction rs as [|r rs IH]; intros s e He.
  - exists e. split; [done|]. split; [done|]. intros _. split; [done|]. apply Qcle_refl.
  - cbn [read_all fold_left].
    destruct (native_value_stored (t_check r) (t_sample r) (seen_store r)
                (seen_coordinator r) s e He) as (inc & Hinc & Hst).
    destruct (IH _ _ Hst) as (e' & He' & Hpos & Hmono).
    exists e'. split; [exact He'|]. split.
    + intros H0. apply Hpos. cbn [energy].
      case_bool_decide; [by apply Qcplus_nonneg_nonneg|].
      by rewrite Qcplus_0_l.
    + intros Hall. inversion Hall as [|? ? Hr Hrs]; subst.
      cbn [last_reset energy] in Hmono.
      destruct Hmono as [Hk Hle].
      { eapply Forall_impl; [exact Hrs|]. intros r' Hr'. cbn in Hr'. congruence. }
      split; [congruence|].
      rewrite bool_decide_eq_true_2 in Hle by done.
      eapply Qcle_trans; [|exact Hle]. by apply Qcle_plus_nonneg.
Qed.

End EnergyLifeFacts.

Section EnergyLifeExamples.
Import Py Coordinator Datetime Sensor Scenarios.
Local Open Scope Qc_scope.

Lemma first_read_after_load_witness :
  last_power (new_sensor (PInt 7)) = None
  /\ snd (Sensor.native_value float_of_digits id date_isoformat
            jan2_0030 jan2_0030 (power_socket "200") coord0
            (load_today_energy_data jan2_0030 (LoadReturns None)
               (LoadReturns (Some legacy_jan1)) (new_sensor (PInt 7))))
     = Some 0.
Proof.
  split; [reflexivity|].
  destruct (first_read_after_load float_of_digits id date_isoformat
              today_energy last_reset_date jan2_0030 jan2_0030 jan2_0030
              (LoadReturns None) (LoadReturns (Some legacy_jan1))
              (power_socket "200") coord0 (new_sensor (PInt 7)) eq_refl)
    as (e & _ & _ & Hl & Hv).
  rewrite (Hl legacy_jan1 eq_refl eq_refl) in Hv. exact Hv.
Defined.

Lemma energy_never_decreases_witness :
  stored day_sensor = Some {| energy := Q2Qc 5; last_reset := "2024-01-01" |}
  /\ exists e' : energy_data,
       stored (read_all float_of_digits id date_isoformat
                 [Reading jan1_2200 jan1_2200 (power_socket "100") coord0;
                  Reading jan1_2300 jan1_2300 (power_socket "200") coord0]
                 day_sensor) = Some e'
       /\ Q2Qc 5 <= energy e'.
Proof.
  split; [reflexivity|].
  destruct (energy_never_decreases float_of_digits id date_isoformat
              [Reading jan1_2200 jan1_2200 (power_socket "100") coord0;
               Reading jan1_2300 jan1_2300 (power_socket "200") coord0]
              day_sensor {| energy := Q2Qc 5; last_reset := "2024-01-01" |}
              eq_refl) as (e' & He' & _ & Hmono).
  exists e'. split; [exact He'|].
  apply Hmono. repeat constructor.
Defined.


End EnergyLifeExamples.

Section GateFacts.
Import Utils.
Local Open Scope Qc_scope.
Implicit Types (d : CommandDebouncer) (e : string) (t : Qc) (st : gate_state).

Lemma can_execute_true t e d :
  can_execute_command t e d = true ->
  default false (is_processing d !! e) = false
  /\ interval d <= t - default 0 (last_command_time d !! e).
Proof.
  unfold can_execute_command.
  destruct (default false (is_processing d !! e)); [done|].
  destruct (Qcltb _ _) eqn:E; [done|]. intros _. split; [done|].
  by apply Qcltb_ge.
Qed.

Lemma gate_inv_init (i : Qc) : gate_inv i (gate_init i).
Proof.
  repeat split; intros; cbn in *; rewrite ?lookup_empty in *; cbn in *;
    done || lia.
Qed.

Lemma gate_inv_step (i : Qc) st ev :
  gate_inv i st -> gate_inv i (gate_step st ev).
Proof.
  intros (Hi & Hle & Hrun & Hlast & Hidle & Hsp).
  destruct ev as [e tc tm|e]; cbn [gate_step].
  - unfold try_acquire.
    destruct (can_execute_command tc e (gate st)) eqn:Hcan; [|done].
    apply can_execute_true in Hcan as [Hproc Hint].
    assert (Hr0 : default 0%nat (running st !! e) = 0%nat).
    { specialize (Hle e). specialize (Hrun e).
      destruct (default 0%nat (running st !! e)) as [|[|n]]; [done| |lia].
      rewrite Hrun in Hproc; done. }
    rewrite Hr0. repeat split; cbn.
    + done.
    + intros e'. destruct (decide (e = e')) as [->|];
        [rewrite lookup_insert_eq|rewrite lookup_insert_ne by done]; cbn; auto.
    + intros e'. destruct (decide (e = e')) as [->|];
        [by rewrite !lookup_insert_eq|rewrite !lookup_insert_ne by done]; auto.
    + intros e'. destruct (decide (e = e')) as [->|].
      * by rewrite lookup_insert_eq, bool_decide_eq_true_2.
      * rewrite lookup_insert_ne, bool_decide_eq_false_2 by done. auto.
    + intros e'. destruct (decide (e = e')) as [->|];
        [by rewrite !lookup_insert_eq|rewrite !lookup_insert_ne by done]; auto.
    + rewrite <- Hlast. rewrite Hi in Hint.
      destruct (last_command_time (gate st) !! e); [|done].
      exact Hint.
    + done.
  - destruct (default 0%nat (running st !! e)) as [|n] eqn:Hr; [done|].
    assert (n = 0%nat) by (specialize (Hle e); lia). subst n.
    repeat split; cbn.
    + done.
    + intros e'. destruct (decide (e = e')) as [->|];
        [rewrite lookup_insert_eq|rewrite lookup_insert_ne by done]; cbn; auto.
    + intros e'. destruct (decide (e = e')) as [->|];
        [by rewrite !lookup_insert_eq|rewrite !lookup_insert_ne by done]; auto.
    + done.
    + intros e'. destruct (decide (e = e')) as [->|];
        [by rewrite !lookup_insert_eq|rewrite !lookup_insert_ne by done]; auto.
    + done.
Qed.

Lemma gate_inv_run (i : Qc) (evs : list gate_event) st :
  gate_inv i st -> gate_inv i (gate_run st evs).
Proof.
  revert st. induction evs as [|ev evs IH]; intros st H; [done|].
  cbn. apply IH. by apply gate_inv_step.
Qed.

(** X12.  Whatever calls are made and in whatever order their bodies
    end, a debouncer never has two bodies running for one entity, and
    while one is running every further call for that entity is dropped
    without changing anything. *)
Theorem one_command_per_entity (i : Qc) (evs : list gate_event) (e : string) :
  (default 0%nat (running (gate_run (gate_init i) evs) !! e) <= 1)%nat
  /\ (default 0%nat (running (gate_run (gate_init i) evs) !! e) = 1%nat ->
      forall t_check t_mark : Qc,
        gate_step (gate_run (gate_init i) evs) (Called e t_check t_mark)
        = gate_run (gate_init i) evs).
Proof.
  destruct (gate_inv_run i evs _ (gate_inv_init i)) as (Hi & Hle & Hrun & _).
  split; [apply Hle|].
  intros H1 tc tm. cbn. unfold try_acquire, can_execute_command.
  by rewrite (Hrun e H1).
Qed.

(** X13.  Every call a debouncer lets through is checked at least one
    interval after the start time recorded by the previous call let
    through for the same entity, for any clock readings. *)
Theorem accepted_commands_are_spaced (i : Qc) (evs : list gate_event) :
  spaced i (let_through (gate_run (gate_init i) evs)).
Proof.
  by destruct (gate_inv_run i evs _ (gate_inv_init i)) as (_ & _ & _ & _ & _ & H).
Qed.

(** X14.  What a debouncer does for one entity (letting a call through
    or dropping it, ending a body, resetting) never changes its
    decision for another entity. *)
Theorem entities_do_not_interfere (e e' : string) (t tc tm : Qc) d :
  e <> e' ->
  can_execute_command t e' (fst (try_acquire tc tm e d)) = can_execute_command t e' d
  /\ can_execute_command t e' (mark_command_end e d) = can_execute_command t e' d
  /\ can_execute_command t e' (reset_entity e d) = can_execute_command t e' d.
Proof.
  intros Hne. unfold try_acquire, can_execute_command.
  destruct (if default false (is_processing d !! e) then false else _); cbn;
    rewrite ?lookup_insert_ne, ?lookup_delete_ne by done; done.
Qed.

(** X15.  After [reset_entity] the debouncer decides for that entity
    as a new debouncer of the same interval does, also when a body is
    still running for it; resetting twice is resetting once. *)
Theorem reset_entity_forgets (e : string) (t : Qc) d :
  can_execute_command t e (reset_entity e d)
  = can_execute_command t e (new_debouncer (interval d))
  /\ can_execute_command t e (reset_entity e d) = negb (Qcltb t (interval d))
  /\ reset_entity e (reset_entity e d) = reset_entity e d.
Proof.
  unfold can_execute_command, reset_entity. cbn.
  rewrite !lookup_delete_eq, !lookup_empty. cbn.
  replace (t - 0) with t by ring.
  split; [done|]. split; [by destruct (Qcltb _ _)|].
  f_equal; by rewrite delete_delete_eq.
Qed.

(** X16.  A method decorated with [use_global=False] gets a debouncer
    of its own with the declared interval: its first call is decided by
    that interval alone, and neither the global debouncer nor the
    debouncers of earlier decorations change. *)
Theorem private_debouncer_uses_declared_interval
    (i : Qc) (w : debouncers) (e : string) (tc tm : Qc) :
  let decorated := debounce_command i false w in
  deref (snd decorated) (fst decorated) = Some (new_debouncer i)
  /\ global_debouncer (fst decorated) = global_debouncer w
  /\ snd (wrapper_enter (snd decorated) tc tm e (fst decorated))
     = negb (Qcltb tc i)
  /\ global_debouncer (fst (wrapper_enter (snd decorated) tc tm e (fst decorated)))
     = global_debouncer w
  /\ (forall (n : nat), (n < length (private_debouncers w))%nat ->
        private_debouncers (fst (wrapper_enter (snd decorated) tc tm e (fst decorated))) !! n
        = private_debouncers w !! n).
Proof.
  cbv zeta. unfold debounce_command. cbn [fst snd deref].
  assert (Hd : (private_debouncers w ++ [new_debouncer i])
                 !! length (private_debouncers w) = Some (new_debouncer i)).
  { by rewrite lookup_app_r, Nat.sub_diag by lia. }
  split; [done|]. split; [done|].
  unfold wrapper_enter. cbn [deref private_debouncers]. rewrite Hd.
  unfold try_acquire, can_execute_command. cbn.
  rewrite !lookup_empty. cbn. replace (tc - 0) with tc by ring.
  destruct (Qcltb tc i); cbn; repeat split; try done.
  all: intros n Hn.
  all: rewrite ?list_lookup_insert_ne by lia.
  all: by rewrite lookup_app_l.
Qed.

Lemma entities_do_not_interfere_witness :
  "switch.a" <> "switch.b"
  /\ can_execute_command 1 "switch.b"
       (fst (try_acquire 1 1 "switch.a" (new_debouncer default_interval))) = true.
Proof.
  split; [discriminate|].
  destruct (entities_do_not_interfere "switch.a" "switch.b" 1 1 1
              (new_debouncer default_interval)) as (H & _); [discriminate|].
  rewrite H. reflexivity.
Defined.
End GateFacts.

Section SwitchMoreFacts.
Import Py Coordinator Switch.
Local Open Scope Qc_scope.
Implicit Types (h : store) (co : coordinator) (e : entity) (ls : list loc)
  (id : value) (b : bool).

(** Writing the state keeps every record's [id] and adds no record. *)
Lemma write_l1_state_id h id b ls (x : loc) :
  (fun d => get "id" (fields d)) <$> (write_l1_state h id b ls !! x)
  = (fun d => get "id" (fields d)) <$> (h !! x).
Proof.
  induction ls as [|y ls IH]; cbn; [done|].
  destruct (h !! y) as [dy|] eqn:Hy; [|done].
  destruct (py_eq (get "id" (fields dy)) id); [|done].
  destruct (decide (y = x)) as [->|Hne].
  - rewrite lookup_insert_eq, Hy. cbn. unfold get. cbn.
    by rewrite lookup_insert_ne.
  - by rewrite lookup_insert_ne.
Qed.

Lemma canonical_after_write h id b ls :
  canonical_l1_state (write_l1_state h id b ls) id ls
  = PBool (if listed h id ls then b else false).
Proof.
  induction ls as [|x ls IH]; cbn; [done|].
  destruct (h !! x) as [dx|] eqn:Hx.
  - destruct (py_eq (get "id" (fields dx)) id) eqn:Hm.
    + rewrite lookup_insert_eq. unfold get at 1. cbn.
      rewrite lookup_insert_ne by done. fold (get "id" (fields dx)). rewrite Hm.
      unfold get. cbn. by rewrite lookup_insert_eq.
    + pose proof (write_l1_state_id h id b ls x) as Hid. rewrite Hx in Hid.
      destruct (write_l1_state h id b ls !! x) as [dx'|]; [|done].
      cbn in Hid. injection Hid as Hid. rewrite Hid, Hm. exact IH.
  - pose proof (write_l1_state_id h id b ls x) as Hid. rewrite Hx in Hid.
    destruct (write_l1_state h id b ls !! x); [done|]. exact IH.
Qed.

Lemma power_after_write h id b (fallback : value) ls :
  power_l1_state (write_l1_state h id b ls) id fallback ls
  = if listed h id ls then PBool b else fallback.
Proof.
  induction ls as [|x ls IH]; cbn; [done|].
  destruct (h !! x) as [dx|] eqn:Hx.
  - destruct (py_eq (get "id" (fields dx)) id) eqn:Hm.
    + rewrite lookup_insert_eq. unfold get at 1. cbn.
      rewrite lookup_insert_ne by done. fold (get "id" (fields dx)). rewrite Hm.
      unfold get_default. cbn. by rewrite lookup_insert_eq.
    + pose proof (write_l1_state_id h id b ls x) as Hid. rewrite Hx in Hid.
      destruct (write_l1_state h id b ls !! x) as [dx'|]; [|done].
      cbn in Hid. injection Hid as Hid. rewrite Hid, Hm. exact IH.
  - pose proof (write_l1_state_id h id b ls x) as Hid. rewrite Hx in Hid.
    destruct (write_l1_state h id b ls !! x); [done|]. exact IH.
Qed.

Lemma listed_ext h h' id ls :
  (forall x, (fun d => get "id" (fields d)) <$> (h' !! x)
             = (fun d => get "id" (fields d)) <$> (h !! x)) ->
  listed h' id ls = listed h id ls.
Proof.
  intros H. unfold listed. induction ls as [|x ls IH]; cbn; [done|].
  rewrite IH. f_equal. specialize (H x).
  destruct (h' !! x), (h !! x); cbn in H; simplify_eq; try done.
  by rewrite H.
Qed.

(** X17.  Reading the records as an accepted command left them, a
    power-socket entity reads the commanded state at every clock
    reading.  A plain socket entity reads it during the thirty-second
    window, and after it exactly when a record of [coordinator.data]
    has the entity's [id]; otherwise it reads off, whatever the command
    was. *)
Theorem successful_command_is_read_back
    (cls : entity_class) (command : string) (token : value) (resp : response)
    (t0 now : Qc) h co e h' e' :
  send_command command token resp t0 h co e = (h', e', true) ->
  is_Some (h !! device_ref e) ->
  is_on_of cls now h' co e'
  = match cls with
    | MindorSocketPowerEntity => PBool (bool_decide (command = "on"%string))
    | MindorSocketEntity =>
        if Utils.Qcltb (now - t0) (Q2Qc 30)
           || listed h (get "id" (local_device h e)) (default [] (data co))
        then PBool (bool_decide (command = "on"%string))
        else PBool false
    end.
Proof.
  intros Hs Hd.
  destruct (send_command_success _ _ _ _ _ _ _ _ _ Hs Hd) as (Hr & Ht & Hv).
  destruct Hd as [d Hd].
  unfold send_command in Hs. rewrite Hd in Hs.
  destruct (negb (truthy token)); [done|].
  destruct (negb (truthy (get "device_id" (local_device h e)))); [done|].
  destruct resp as [|code errcode]; [done|].
  destruct (negb (code =? 200)%Z); [done|].
  destruct (py_eq errcode (PInt 0)); [|done].
  injection Hs as <- <-.
  cbn [device_ref last_command_time] in *.
  set (b := bool_decide (command = "on"%string)) in *.
  set (h1 := <[device_ref e := set_field "l1_state" (PBool b) d]> h) in *.
  assert (Hid1 : forall x, (fun d => get "id" (fields d)) <$> (h1 !! x)
                           = (fun d => get "id" (fields d)) <$> (h !! x)).
  { intros x. unfold h1. destruct (decide (device_ref e = x)) as [<-|].
    - rewrite lookup_insert_eq, Hd. cbn. unfold get. cbn.
      by rewrite lookup_insert_ne.
    - by rewrite lookup_insert_ne. }
  assert (Hloc1 : get "id" (local_device h1 e) = get "id" (local_device h e)).
  { unfold local_device. specialize (Hid1 (device_ref e)).
    destruct (h1 !! device_ref e), (h !! device_ref e); cbn in *; simplify_eq; done. }
  set (id := get "id" (local_device h1 e)) in *.
  set (ls := default [] (data co)) in *.
  assert (Hloc2 : get "id" (local_device (write_l1_state h1 id b ls)
                     {| device_ref := device_ref e; last_command_time := Some t0 |})
                  = id).
  { unfold local_device. cbn [device_ref].
    pose proof (write_l1_state_id h1 id b ls (device_ref e)) as Hw.
    fold id. unfold id at 2, local_device.
    destruct (write_l1_state h1 id b ls !! device_ref e), (h1 !! device_ref e);
      cbn in *; simplify_eq; done. }
  rewrite <- Hloc1. fold id.
  rewrite <- (listed_ext h h1 id ls Hid1).
  destruct cls; cbn [is_on_of]; unfold is_on, power_is_on;
    cbn [last_command_time]; rewrite Hloc2, Hv; fold ls.
  - destruct (Utils.Qcltb (now - t0) (Q2Qc 30)); cbn [orb]; [done|].
    rewrite canonical_after_write. by destruct (listed h1 id ls).
  - destruct (Utils.Qcltb (now - t0) (Q2Qc 30)); [done|].
    rewrite power_after_write. by destruct (listed h1 id ls).
Qed.

Lemma any_power_socket_online_spec h ls :
  any_power_socket_online h ls = true
  <-> exists (l : loc) (d : device),
        In l ls /\ h !! l = Some d
        /\ py_in (get "typ_spu" (fields d)) SOCKET_POWER_LIST = true
        /\ truthy (get "online" (fields d)) = true.
Proof.
  induction ls as [|x ls IH]; cbn [any_power_socket_online].
  - split; [done|]. by intros (l & d & [] & _).
  - destruct (h !! x) as [dx|] eqn:Hx.
    + destruct (py_in _ _ && truthy _) eqn:Hc.
      * split; [intros _|done]. apply andb_true_iff in Hc as [H1 H2].
        exists x, dx. cbn. auto.
      * rewrite IH. split.
        -- intros (l & d & Hin & H). exists l, d. cbn. auto.
        -- intros (l & d & [->|Hin] & Hl & H1 & H2).
           ++ simplify_eq. rewrite H1, H2 in Hc. done.
           ++ eauto 10.
    + rewrite IH. split.
      * intros (l & d & Hin & H). exists l, d. cbn. auto.
      * intros (l & d & [->|Hin] & Hl & H1 & H2); [congruence|eauto 10].
Qed.

(** X18.  A power-socket entity is available exactly when some record
    of [coordinator.data] is an online power socket, whichever device
    that is, or the entity would be available as a plain socket. *)
Theorem power_socket_available_by_any h co e :
  truthy (available MindorSocketPowerEntity h co e) = true
  <-> (exists (l : loc) (d : device),
         In l (default [] (data co)) /\ h !! l = Some d
         /\ py_in (get "typ_spu" (fields d)) SOCKET_POWER_LIST = true
         /\ truthy (get "online" (fields d)) = true)
      \/ truthy (available MindorSocketEntity h co e) = true.
Proof.
  rewrite <- any_power_socket_online_spec. unfold available.
  destruct (any_power_socket_online h (default [] (data co))); cbn.
  - split; auto.
  - split; [auto|]. by intros [|].
Qed.

(** X19.  A call of [async_turn_on] or [async_turn_off] leaves the
    device records and the entity as they were unless the command
    succeeded, and it succeeds only when the debouncer let it through,
    the device is available, the token and the device id are set, and
    the endpoint answered 200 with [errcode] 0. *)
Theorem turn_changes_state_only_on_success
    (cls : entity_class) (command entity_id : string) (t_check t_mark : Qc)
    (token : value) (resp : response) (now : Qc)
    (w : Utils.debouncers) h co e :
  let r := async_turn cls command entity_id t_check t_mark token resp now w h co e in
  (snd r <> Sent true -> snd (fst (fst r)) = h /\ snd (fst r) = e)
  /\ (snd r = Sent true ->
        Utils.can_execute_command t_check entity_id (Utils.global_debouncer w) = true
        /\ truthy (available cls h co e) = true
        /\ truthy token = true
        /\ truthy (get "device_id" (local_device h e)) = true
        /\ exists errcode, resp = HttpStatus 200 errcode /\ py_eq errcode (PInt 0) = true).
Proof.
  cbv zeta. unfold async_turn, Utils.wrapper_enter, Utils.try_acquire.
  cbn [Utils.deref].
  destruct (Utils.can_execute_command _ _ _); cbn [negb Utils.assign];
    [|split; [done|by intros [=]]].
  destruct (truthy (available cls h co e)); cbn [negb];
    [|split; [done|by intros [=]]].
  unfold send_command.
  destruct (truthy token); cbn [negb]; [|split; [done|by intros [=]]].
  destruct (truthy (get "device_id" (local_device h e))); cbn [negb];
    [|split; [done|by intros [=]]].
  destruct resp as [|code errcode]; [split; [done|by intros [=]]|].
  destruct (Z.eqb_spec code 200) as [->|]; cbn [negb];
    [|split; [done|by intros [=]]].
  destruct (py_eq errcode (PInt 0)) eqn:He; cbn [fst snd];
    [|split; [done|by intros [=]]].
  split; [done|]. intros _. repeat split; eauto.
Qed.

(** What a run of the wrapper leaves in the global debouncer. *)
Lemma async_turn_gate
    (cls : entity_class) (command entity_id : string) (t_check t_mark : Qc)
    (token : value) (resp : response) (now : Qc)
    (w : Utils.debouncers) h co e :
  let r := async_turn cls command entity_id t_check t_mark token resp now w h co e in
  if Utils.can_execute_command t_check entity_id (Utils.global_debouncer w)
  then snd r <> Dropped
       /\ Utils.global_debouncer (fst (fst (fst r)))
          = Utils.mark_command_end entity_id
              (Utils.mark_command_start t_mark entity_id (Utils.global_debouncer w))
  else snd r = Dropped
       /\ Utils.global_debouncer (fst (fst (fst r))) = Utils.global_debouncer w.
Proof.
  cbv zeta. unfold async_turn, Utils.wrapper_enter, Utils.try_acquire.
  cbn [Utils.deref].
  destruct (Utils.can_execute_command t_check entity_id _);
    cbn [negb Utils.assign]; [|done].
  destruct (negb (truthy (available cls h co e))); [done|].
  by destruct (send_command command token resp now h co e) as [[h' e'] ok].
Qed.

(** X20.  A call the debouncer let through releases the entity when it
    returns, whether the device was unavailable, the command failed or
    it succeeded; the entity's next call is then dropped exactly when
    it is checked less than the global interval after the first call's
    start time. *)
Theorem turn_let_through_blocks_next
    (cls cls2 : entity_class) (command command2 entity_id : string)
    (t_check t_mark t_check2 t_mark2 : Qc)
    (token token2 : value) (resp resp2 : response) (now now2 : Qc)
    (w : Utils.debouncers) h co e h2 co2 e2 :
  let r := async_turn cls command entity_id t_check t_mark token resp now w h co e in
  snd r <> Dropped ->
  default false (Utils.is_processing (Utils.global_debouncer (fst (fst (fst r))))
                   !! entity_id) = false
  /\ (snd (async_turn cls2 command2 entity_id t_check2 t_mark2 token2 resp2 now2
             (fst (fst (fst r))) h2 co2 e2) = Dropped
      <-> t_check2 - t_mark < Utils.interval (Utils.global_debouncer w)).
Proof.
  cbv zeta. intros Hnd.
  pose proof (async_turn_gate cls command entity_id t_check t_mark token resp now
                w h co e) as H1. cbv zeta in H1.
  destruct (Utils.can_execute_command t_check entity_id _);
    [destruct H1 as [_ Hg]|by destruct H1].
  set (w1 := fst (fst (fst (async_turn cls command entity_id t_check t_mark token
                              resp now w h co e)))) in *.
  pose proof (async_turn_gate cls2 command2 entity_id t_check2 t_mark2 token2
                resp2 now2 w1 h2 co2 e2) as H2. cbv zeta in H2.
  rewrite Hg in *. unfold Utils.can_execute_command in H2. cbn in *.
  rewrite !lookup_insert_eq in *. cbn in *. split; [done|].
  rewrite <- Qcltb_lt.
  destruct (Utils.Qcltb _ _); destruct H2 as [H2 _]; split; done.
Qed.

Lemma successful_command_is_read_back_witness :
  let sent := send_command "on" (PStr "token") Scenarios.accepted (Q2Qc 1000)
                Scenarios.store0 Scenarios.coord0 Scenarios.entity0 in
  snd sent = true
  /\ is_Some (Scenarios.store0 !! device_ref Scenarios.entity0)
  /\ is_on_of MindorSocketEntity (Q2Qc 2000) (fst (fst sent)) Scenarios.coord0
       (snd (fst sent))
     = PBool true.
Proof.
  cbv zeta. split; [reflexivity|]. split; [by eexists|].
  set (sent := send_command "on" (PStr "token") Scenarios.accepted (Q2Qc 1000)
                 Scenarios.store0 Scenarios.coord0 Scenarios.entity0).
  refine (eq_trans
            (successful_command_is_read_back MindorSocketEntity "on" (PStr "token")
               Scenarios.accepted (Q2Qc 1000) (Q2Qc 2000)
               Scenarios.store0 Scenarios.coord0 Scenarios.entity0
               (fst (fst sent)) (snd (fst sent)) _ _) _).
  - by vm_compute.
  - by eexists.
  - reflexivity.
Defined.

Lemma turn_let_through_blocks_next_witness :
  let r := async_turn MindorSocketEntity "on" "switch.socket" 1 1
             (PStr "token") NetworkError 1 Utils.module_init
             Scenarios.store0 Scenarios.coord0 Scenarios.entity0 in
  snd r = Sent false
  /\ snd (async_turn MindorSocketEntity "off" "switch.socket" (Q2Qc (12 # 10))
            (Q2Qc (12 # 10)) (PStr "token") Scenarios.accepted (Q2Qc (12 # 10))
            (fst (fst (fst r))) Scenarios.store0 Scenarios.coord0 Scenarios.entity0)
     = Dropped.
Proof.
  cbv zeta. split; [reflexivity|].
  apply (turn_let_through_blocks_next MindorSocketEntity MindorSocketEntity
           "on" "off" "switch.socket" 1 1 (Q2Qc (12 # 10)) (Q2Qc (12 # 10))
           (PStr "token") (PStr "token") NetworkError Scenarios.accepted
           1 (Q2Qc (12 # 10)) Utils.module_init
           Scenarios.store0 Scenarios.coord0 Scenarios.entity0
           Scenarios.store0 Scenarios.coord0 Scenarios.entity0).
  - discriminate.
  - reflexivity.
Defined.
End SwitchMoreFacts.

Section SignShapeFacts.
Import MD5 RequestConfig.

Lemma hex_digit_lower (n : Z) : 0 <= n < 16 -> lower_hex (hex_digit n) = true.
Proof.
  intros H. rewrite <- (Z2Nat.id n) by lia.
  assert (Hk : (Z.to_nat n < 16)%nat) by lia.
  revert Hk. generalize (Z.to_nat n). intros k Hk.
  do 16 (destruct k as [|k]; [reflexivity|]). lia.
Qed.

Lemma hex_shape (bs : list Z) :
  Forall (fun b => 0 <= b < 256) bs ->
  String.length (hex bs) = (2 * length bs)%nat
  /\ forallb lower_hex (list_ascii_of_string (hex bs)) = true.
Proof.
  induction 1 as [|b bs Hb _ [IHl IHf]]; [done|].
  cbn [hex String.length list_ascii_of_string forallb length].
  split; [lia|].
  rewrite !hex_digit_lower, IHf; [done| |].
  - apply Z.mod_pos_bound. lia.
  - split; [apply Z.div_pos; lia|apply Z.div_lt_upper_bound; lia].
Qed.

Lemma bytes_of_word_range (x : Z) :
  Forall (fun b => 0 <= b < 256) (bytes_of_word x).
Proof.
  unfold bytes_of_word. repeat constructor; apply Z.mod_pos_bound; lia.
Qed.

Lemma digest_shape (msg : list Z) :
  length (digest msg) = 16%nat /\ Forall (fun b => 0 <= b < 256) (digest msg).
Proof.
  unfold digest.
  destruct (fold_left process_block _ initial) as [[[a b] c] d].
  split; [done|]. rewrite !Forall_app. auto using bytes_of_word_range.
Qed.

(** X21.  Whatever the parameters, the signature [generate_sign]
    returns is 32 characters long and each of them is one of [0-9] and
    [a-f]. *)
Theorem sign_is_32_hex_digits (opt : odict) :
  String.length (generate_sign opt) = 32%nat
  /\ forallb lower_hex (list_ascii_of_string (generate_sign opt)) = true.
Proof.
  unfold generate_sign, hexdigest.
  destruct (digest_shape (bytes_of_string (object_to_query_string opt))) as [Hl Hr].
  destruct (hex_shape _ Hr) as [H1 H2]. rewrite H1, Hl. done.
Qed.
End SignShapeFacts.

(* ===================================================================== *)
(** * The climate and cover entities *)
(* ===================================================================== *)

Section ClimateFacts.
Import Py Coordinator Climate.
Local Open Scope string_scope.
Implicit Types (h : store) (co : coordinator) (e : entity) (ls : list loc)
  (st : list act_entry) (a b : string) (v : value).

Lemma act_status_value_update_eq st a v :
  act_status_value (update_act_status st a v) a = v.
Proof.
  induction st as [|item st IH]; cbn.
  - by rewrite has_act_new, bool_decide_eq_true_2, new_entry_val.
  - destruct (has_act a item) eqn:Ha; cbn.
    + rewrite has_act_set_val, Ha. unfold get. by rewrite lookup_insert_eq.
    + by rewrite Ha.
Qed.

Lemma act_status_value_update_ne st a b v :
  a <> b ->
  act_status_value (update_act_status st a v) b = act_status_value st b.
Proof.
  intros Hne. induction st as [|item st IH]; cbn.
  - by rewrite has_act_new, bool_decide_eq_false_2.
  - destruct (has_act a item) eqn:Ha; cbn.
    + rewrite has_act_set_val.
      destruct (has_act b item) eqn:Hb; [|done].
      destruct Hne. eauto using has_act_both.
    + by rewrite IH.
Qed.

Lemma find_by_id_ext h h' id ls :
  (forall x : loc, fields <$> (h' !! x) = fields <$> (h !! x)) ->
  find_by_id h' id ls = find_by_id h id ls.
Proof.
  intros H. induction ls as [|x ls IH]; cbn; [done|].
  specialize (H x).
  destruct (h' !! x) as [d'|], (h !! x) as [d|]; cbn in H; simplify_eq; try done.
  rewrite H, IH. done.
Qed.

(** The upsert writes no scalar field and adds no record. *)
Lemma update_local_device_status_fields a (w : string) h co e (x : loc) :
  fields <$> (update_local_device_status a w h co e !! x) = fields <$> (h !! x).
Proof.
  unfold update_local_device_status.
  destruct (get_current_device_data h co e) as [l|]; [|done].
  destruct (h !! l) as [d|] eqn:Hl; [|done].
  destruct (device_act_status d); [|done].
  destruct (decide (l = x)) as [->|].
  - by rewrite lookup_insert_eq, Hl.
  - by rewrite lookup_insert_ne.
Qed.

Lemma get_current_device_data_ext h h' co e e' :
  (forall x : loc, fields <$> (h' !! x) = fields <$> (h !! x)) ->
  device_ref e' = device_ref e ->
  get_current_device_data h' co e' = get_current_device_data h co e.
Proof.
  intros H Hr. unfold get_current_device_data, local_device. rewrite Hr, H.
  destruct (data co) as [[|l ls]|]; try done.
  by apply find_by_id_ext.
Qed.

Lemma update_local_device_status_lookup a (w : string) h co e (l : loc)
    (d : device) st :
  get_current_device_data h co e = Some l -> h !! l = Some d ->
  device_act_status d = Some st ->
  update_local_device_status a w h co e !! l
  = Some (set_act_status (update_act_status st a (PStr w)) d).
Proof.
  intros Hc Hl Hs. unfold update_local_device_status.
  rewrite Hc, Hl, Hs. by rewrite lookup_insert_eq.
Qed.

Lemma update_local_device_status_none a (w : string) h co e (l : loc)
    (d : device) :
  get_current_device_data h co e = Some l -> h !! l = Some d ->
  device_act_status d = None ->
  update_local_device_status a w h co e = h.
Proof.
  intros Hc Hl Hs. unfold update_local_device_status. by rewrite Hc, Hl, Hs.
Qed.

Lemma hvac_mode_read h co e (l : loc) (d : device) st :
  get_current_device_data h co e = Some l -> h !! l = Some d ->
  device_act_status d = Some st ->
  hvac_mode h co e
  = if py_eq (act_status_value st "On") (PStr "00") then OFF
    else mode_of (act_status_value st "mode").
Proof.
  intros Hc Hl Hs. unfold hvac_mode, current_device, device_truthy.
  rewrite Hc, Hl, Hs. rewrite (bool_decide_eq_true_2 (is_Some (Some st))) by eauto.
  rewrite orb_true_r. unfold get_act_status_value. by rewrite Hs.
Qed.

Lemma hvac_mode_entity h co e e' :
  device_ref e' = device_ref e -> hvac_mode h co e' = hvac_mode h co e.
Proof.
  intros Hr. unfold hvac_mode, current_device.
  by rewrite (get_current_device_data_ext h h co e e').
Qed.

Lemma mode_of_mode_val (m : HVACMode) :
  m <> HEAT_COOL -> m <> OFF -> mode_of (PStr (mode_val m)) = m.
Proof. by destruct m. Qed.

(** X22.  Setting a mode and reading it back.  When
    [async_set_hvac_mode] succeeds for one of the supported modes, and
    the entity's record in [coordinator.data] has a status list,
    [hvac_mode] read on the records as the call left them gives the
    mode that was set, also when the device had to be switched on
    first.  When the record has no status list
    the call changes no record and [hvac_mode] reads what it read
    before. *)
Theorem hvac_mode_round_trip (m : HVACMode) (token : value)
    (resp1 resp2 : Switch.response) h co e (l : loc) (d : device) :
  get_current_device_data h co e = Some l -> h !! l = Some d ->
  let r := async_set_hvac_mode m token resp1 resp2 h co e in
  snd (fst r) = true ->
  (is_Some (device_act_status d) -> m <> HEAT_COOL ->
     hvac_mode (fst (fst (fst r))) co (snd (fst (fst r))) = m)
  /\ (device_act_status d = None ->
        fst (fst (fst r)) = h
        /\ hvac_mode (fst (fst (fst r))) co (snd (fst (fst r))) = hvac_mode h co e).
Proof.
  intros Hc Hl. cbv zeta. intros Hok. split.
  - intros [st Hs] Hm.
    assert (Hoff : forall e1, device_ref e1 = device_ref e ->
              hvac_mode (update_local_device_status "On" "00" h co e) co e1 = OFF).
    { intros e1 Hr. rewrite (hvac_mode_entity _ co e e1 Hr).
      rewrite (hvac_mode_read _ co e l
                 (set_act_status (update_act_status st "On" (PStr "00")) d)
                 (update_act_status st "On" (PStr "00"))).
      - by rewrite act_status_value_update_eq.
      - rewrite <- Hc. apply get_current_device_data_ext; [|done].
        apply update_local_device_status_fields.
      - by apply update_local_device_status_lookup.
      - done. }
    assert (Hmode : forall h1 e1 st1 (d1 : device),
              get_current_device_data h1 co e1 = Some l -> h1 !! l = Some d1 ->
              device_act_status d1 = Some st1 ->
              py_eq (act_status_value st1 "On") (PStr "00") = false ->
              m <> OFF ->
              hvac_mode (update_local_device_status "mode" (mode_val m) h1 co e1)
                co e1 = m).
    { intros h1 e1 st1 d1 Hc1 Hl1 Hs1 Hon HmO.
      rewrite (hvac_mode_read _ co e1 l
                 (set_act_status (update_act_status st1 "mode" (PStr (mode_val m))) d1)
                 (update_act_status st1 "mode" (PStr (mode_val m)))).
      - rewrite act_status_value_update_ne by done. rewrite Hon.
        rewrite act_status_value_update_eq. by apply mode_of_mode_val.
      - rewrite <- Hc1. apply get_current_device_data_ext; [|done].
        apply update_local_device_status_fields.
      - by apply update_local_device_status_lookup.
      - done. }
    assert (Hcur : current_device h co e = Some d).
    { unfold current_device, device_truthy. rewrite Hc, Hl, Hs.
      rewrite (bool_decide_eq_true_2 (is_Some (Some st))) by eauto.
      by rewrite orb_true_r. }
    unfold async_set_hvac_mode in *. rewrite Hcur in *.
    unfold get_act_status_value in *. rewrite Hs in *.
    cbn [default from_option id] in *.
    destruct m; try done.
    1: { destruct (send_command token resp1 h e); [|done]. by apply Hoff. }
    all: destruct (py_eq (act_status_value st "On") (PStr "00")) eqn:Hon.
    all: destruct (send_command token resp1 h e); try done.
    all: try (cbn [fst snd]; by eapply Hmode).
    all: match goal with
         | H : context [send_command ?t ?r ?h1 ?e1] |- _ =>
             destruct (send_command t r h1 e1); [|done]
         end.
    all: cbn [fst snd].
    all: eapply (Hmode _ _ (update_act_status st "On" (PStr "01")));
      [ rewrite <- Hc; apply get_current_device_data_ext;
          [apply update_local_device_status_fields|done]
      | by apply update_local_device_status_lookup
      | done
      | by rewrite act_status_value_update_eq
      | done ].
  - intros Hs.
    assert (Hn : forall a w e1, device_ref e1 = device_ref e ->
              update_local_device_status a w h co e1 = h).
    { intros a w e1 Hr. eapply update_local_device_status_none; [|done..].
      rewrite <- Hc. by apply get_current_device_data_ext. }
    unfold async_set_hvac_mode in *.
    destruct m;
      repeat match goal with
      | |- context [if ?c then _ else _] => destruct c eqn:?
      | H : context [if ?c then _ else _] |- _ => destruct c eqn:?
      end; cbn [fst snd] in *; try done;
      rewrite ?Hn by done; rewrite ?Hn by done;
      (split; [done|]); by apply hvac_mode_entity.
Qed.

Lemma hvac_mode_round_trip_witness :
  let r := async_set_hvac_mode HEAT (PStr "token") Scenarios.accepted
             Scenarios.accepted Scenarios.aircon_store Scenarios.coord0
             Scenarios.climate0 in
  hvac_mode Scenarios.aircon_store Scenarios.coord0 Scenarios.climate0 = OFF
  /\ snd r = [("switch", "on"); ("mode", "02")]
  /\ hvac_mode (fst (fst (fst r))) Scenarios.coord0 (snd (fst (fst r))) = HEAT.
Proof.
  cbv zeta. split; [reflexivity|]. split; [reflexivity|].
  apply (hvac_mode_round_trip HEAT (PStr "token") Scenarios.accepted
           Scenarios.accepted Scenarios.aircon_store Scenarios.coord0
           Scenarios.climate0 1%nat Scenarios.aircon).
  - reflexivity.
  - reflexivity.
  - reflexivity.
  - by eexists.
  - discriminate.
Defined.
End ClimateFacts.

Section CoverFacts.
Import Py Coordinator Cover.
Local Open Scope string_scope.
Implicit Types (h : store) (co : coordinator) (e : entity) (s : state)
  (st : list act_entry) (a : string).

(** Reading the position from the record makes the attribute agree
    with the position, whatever they were. *)
Lemma update_from_device_data_closed h e :
  is_closed_attr (update_from_device_data h e)
  = is_closed (update_from_device_data h e).
Proof.
  unfold update_from_device_data, is_closed.
  destruct (curtain_percent _); cbn; [done|]. by destruct (is_closed_attr e).
Qed.

Lemma update_from_device_data_moving h e :
  is_opening (update_from_device_data h e) = is_opening e
  /\ is_closing (update_from_device_data h e) = is_closing e.
Proof. unfold update_from_device_data. by destruct (curtain_percent _). Qed.

Lemma flags_at_update_from_device_data (w : option waiting) h e e' :
  is_opening e' = is_opening e -> is_closing e' = is_closing e ->
  flags_at w e -> flags_at w (update_from_device_data h e').
Proof.
  intros Ho Hc. destruct (update_from_device_data_moving h e') as [Ho' Hc'].
  unfold flags_at. rewrite Ho', Hc', Ho, Hc. done.
Qed.

Lemma consistent_init h co (l : loc) : consistent (init h co l).
Proof.
  split; [apply update_from_device_data_closed|]. cbn.
  unfold new_entity. cbv zeta.
  by destruct (update_from_device_data_moving h
    {| device_data := l;
       device_id := py_or (get "device_id" (default ∅ (fields <$> h !! l)))
                      (get "id" (default ∅ (fields <$> h !! l)));
       current_position := 0; target_position := 0;
       is_opening := false; is_closing := false; is_closed_attr := true |})
    as [-> ->].
Qed.

Lemma consistent_step s (ev : event) : consistent s -> consistent (step s ev).
Proof.
  intros [Hc Hm]. destruct s as [h co e w]. cbn in *.
  destruct ev as [c|resp| |h' co']; cbn.
  - destruct w as [w|]; [by split|]. destruct Hm as [Ho Hcl].
    destruct c as [| | |p]; cbn; try (by split).
    destruct (current_position e <? p)%Z; cbn; [by split|].
    destruct (p <? current_position e)%Z; cbn; by split.
  - destruct w as [w|]; [|by split].
    destruct w as [| | | |p|]; cbn in *;
      destruct (send_command resp e); cbn; unfold consistent; cbn;
      try tauto.
  - split; cbn.
    + unfold handle_coordinator_update.
      destruct (find_device _ _ _); [|done].
      apply update_from_device_data_closed.
    + unfold handle_coordinator_update.
      destruct (find_device _ _ _); [|done].
      by apply (flags_at_update_from_device_data w h e).
  - by split.
Qed.

Lemma consistent_run (evs : list event) s : consistent s -> consistent (run s evs).
Proof.
  revert s. induction evs as [|ev evs IH]; intros s H; [done|].
  cbn. apply IH. by apply consistent_step.
Qed.

(** X23.  Whatever calls, answers, coordinator updates and outside
    writes follow the creation of a curtain entity, in any order, its
    [_is_closed] attribute says closed exactly when its position is 0,
    and when no body is running it is neither opening nor closing. *)
Theorem cover_flags_consistent h co (l : loc) (evs : list event) :
  let s := run (init h co l) evs in
  is_closed_attr (cover s) = is_closed (cover s)
  /\ (waiting_at s = None ->
      is_opening (cover s) = false /\ is_closing (cover s) = false).
Proof.
  cbv zeta. destruct (consistent_run evs _ (consistent_init h co l)) as [Hc Hf].
  split; [done|]. intros Hw. by rewrite Hw in Hf.
Qed.






End CoverFacts.

(* ===================================================================== *)
(** * From a push frame to what the entities show *)
(* ===================================================================== *)

Section PushedStateFacts.
Import Py Coordinator.
Local Open Scope string_scope.
Implicit Types (h : store) (co : coordinator) (ls : list loc)
  (st : list act_entry) (a b : string) (v : value) (f : frame) (msg : ws_message).





Section PushedPower.
Variable py_float : value -> option Qc.







End PushedPower.


End PushedStateFacts.
